(** * The CDP automation client of the OSINT extension

    A shallow embedding of [src/lib/cdp.js] (the [Page] class and
    [createPage]) and of the three scrapers that drive it, together with
    the properties of the session abstraction: escaping of interpolated
    arguments, the attachment guard, teardown, the navigation wait, the
    selector poll and the open/close discipline of the scrapers.

    Strings are [string] (one [ascii] per code unit), JavaScript promises
    that are awaited one after the other become a state-and-exception
    monad over an explicit [World], and everything the browser decides
    (replies, failures, latencies, events) is taken from a [Browser]
    record that the theorems quantify over. *)

From Stdlib Require Import ZArith Ascii DecimalString.
From stdpp Require Import gmap strings list.

Local Open Scope Z_scope.
Set Warnings "-clear-no-such-hyp".

(** ** Strings and the escaping routine *)

Module Js.

(** [s.replace(/'/g, "\\'")]: every single quote is replaced by a
    backslash followed by a single quote; nothing else is touched. *)
Fixpoint escape_quotes (s : string) : string :=
  match s with
  | EmptyString => EmptyString
  | String c rest =>
      if Ascii.eqb c "'"
      then String "\" (String "'" (escape_quotes rest))
      else String c (escape_quotes rest)
  end.

(** Template-literal printing of an integer number, [`${n}`]. *)
Definition string_of_Z (n : Z) : string :=
  NilZero.string_of_int (Z.to_int n).

(** The text of [e] after the first occurrence of [marker]. *)
Fixpoint strip_prefix (p s : string) : option string :=
  match p with
  | EmptyString => Some s
  | String a p' =>
      match s with
      | EmptyString => None
      | String b s' => if Ascii.eqb a b then strip_prefix p' s' else None
      end
  end.

Fixpoint after (marker e : string) : option string :=
  match strip_prefix marker e with
  | Some rest => Some rest
  | None =>
      match e with
      | EmptyString => None
      | String _ e' => after marker e'
      end
  end.

(** *** Reading a single-quoted string literal

    How a JavaScript lexer reads the body of a literal whose opening
    quote has just been consumed.  [scan_literal] finds where the literal
    ends: at the first quote that is not preceded by an escaping
    backslash; a backslash always takes the next code unit with it, and a
    bare line terminator or the end of the input before the closing quote
    is a syntax error ([None]).  It returns the raw body and the text
    that follows the closing quote. *)
Definition is_line_terminator (c : ascii) : bool :=
  Ascii.eqb c "010" || Ascii.eqb c "013".

Fixpoint scan_literal (s : string) : option (string * string) :=
  match s with
  | EmptyString => None
  | String c rest =>
      if Ascii.eqb c "'" then Some (EmptyString, rest)
      else if Ascii.eqb c "\" then
        match rest with
        | EmptyString => None
        | String d rest' =>
            match scan_literal rest' with
            | Some (body, tail) => Some (String c (String d body), tail)
            | None => None
            end
        end
      else if is_line_terminator c then None
      else
        match scan_literal rest with
        | Some (body, tail) => Some (String c body, tail)
        | None => None
        end
  end.

(** The string value of a raw body.  The single-character escapes are
    decoded; a backslash before a line terminator is a line continuation;
    a backslash before any other character stands for that character.
    Numeric escapes (hexadecimal, unicode, octal) denote code units
    that need their digits decoded; this reader answers [None] for them,
    none of the helpers produces one. *)
Definition single_escape (d : ascii) : option ascii :=
  if Ascii.eqb d "n" then Some "010"%char
  else if Ascii.eqb d "t" then Some "009"%char
  else if Ascii.eqb d "r" then Some "013"%char
  else if Ascii.eqb d "b" then Some "008"%char
  else if Ascii.eqb d "f" then Some "012"%char
  else if Ascii.eqb d "v" then Some "011"%char
  else None.

Definition is_numeric_escape (d : ascii) : bool :=
  Ascii.eqb d "x" || Ascii.eqb d "u" ||
  ((48 <=? N.to_nat (N_of_ascii d))%nat && (N.to_nat (N_of_ascii d) <=? 57)%nat).

Fixpoint cooked (body : string) : option string :=
  match body with
  | EmptyString => Some EmptyString
  | String c rest =>
      if Ascii.eqb c "\" then
        match rest with
        | EmptyString => None
        | String d rest' =>
            if is_line_terminator d then cooked rest'
            else if is_numeric_escape d then None
            else
              match cooked rest' with
              | Some v =>
                  Some (String (match single_escape d with
                                | Some e => e
                                | None => d
                                end) v)
              | None => None
              end
        end
      else
        match cooked rest with
        | Some v => Some (String c v)
        | None => None
        end
  end.

(** The value of the literal opened by [marker] (whose last character is
    the opening quote) in expression [e], and the text of [e] after the
    literal's closing quote. *)
Definition literal_after (marker e : string) : option (string * string) :=
  match after marker e with
  | None => None
  | Some s =>
      match scan_literal s with
      | None => None
      | Some (body, tail) =>
          match cooked body with
          | None => None
          | Some v => Some (v, tail)
          end
      end
  end.

(** Values on which quote escaping alone is enough: no backslash and no
    line terminator. *)
Fixpoint plain (s : string) : bool :=
  match s with
  | EmptyString => true
  | String c rest =>
      negb (Ascii.eqb c "\") && negb (is_line_terminator c) && plain rest
  end.

End Js.

(** ** The expressions the helpers generate ([Page.getText] ... [Page.type]) *)

Module Expr.
Import Js.

Definition exists_ (selector : string) : string :=
  let escapedSelector := escape_quotes selector in
  "!!document.querySelector('" +:+ escapedSelector +:+ "')".

(** [waitForSelector] builds the same check inline. *)
Definition waitForSelector (selector : string) : string :=
  "!!document.querySelector('" +:+ escape_quotes selector +:+ "')".

Definition getText (selector : string) : string :=
  let escapedSelector := escape_quotes selector in
  "
      (function() {
        const el = document.querySelector('" +:+ escapedSelector +:+ "');
        return el ? el.textContent.trim() : null;
      })()
    ".

Definition getTextAll (selector : string) : string :=
  let escapedSelector := escape_quotes selector in
  "
      (function() {
        const els = document.querySelectorAll('" +:+ escapedSelector +:+ "');
        return Array.from(els).map(el => el.textContent.trim());
      })()
    ".

(** [attribute] is interpolated as it is given. *)
Definition getAttribute (selector attribute : string) : string :=
  let escapedSelector := escape_quotes selector in
  "
      (function() {
        const el = document.querySelector('" +:+ escapedSelector +:+ "');
        return el ? el.getAttribute('" +:+ attribute +:+ "') : null;
      })()
    ".

Definition click (selector : string) : string :=
  let escapedSelector := escape_quotes selector in
  "
      (function() {
        const el = document.querySelector('" +:+ escapedSelector +:+ "');
        if (el) el.click();
      })()
    ".

Definition type (selector text : string) : string :=
  let escapedSelector := escape_quotes selector in
  let escapedText := escape_quotes text in
  "
      (function() {
        const el = document.querySelector('" +:+ escapedSelector +:+ "');
        if (el) {
          el.value = '" +:+ escapedText +:+ "';
          el.dispatchEvent(new Event('input', { bubbles: true }));
        }
      })()
    ".

Definition content : string := "document.documentElement.outerHTML".
Definition url : string := "window.location.href".

End Expr.

(** ** Values, outcomes and the sequential monad *)

(** Values that cross the protocol by value. *)
#[warnings="-register-all"] Inductive value : Type :=
| VUndefined
| VNull
| VBool (b : bool)
| VNum (n : Z)
| VStr (s : string)
| VObj (fields : list (string * value)).

(** JavaScript truthiness, as tested by [if (exists) return]. *)
Definition truthy (v : value) : bool :=
  match v with
  | VUndefined | VNull => false
  | VBool b => b
  | VNum n => negb (n =? 0)
  | VStr s => negb (String.eqb s "")
  | VObj _ => true
  end.

(** An awaited call either returns or throws an [Error] with a message. *)
Inductive outcome (A : Type) : Type :=
| Ok (a : A)
| Throw (message : string).
Arguments Ok {A} a.
Arguments Throw {A} message.

Definition M (S A : Type) : Type := S -> outcome A * S.

Definition ret {S A} (a : A) : M S A := fun s => (Ok a, s).
Definition throw {S A} (message : string) : M S A := fun s => (Throw message, s).
Definition bind {S A B} (m : M S A) (k : A -> M S B) : M S B :=
  fun s =>
    match m s with
    | (Ok a, s') => k a s'
    | (Throw e, s') => (Throw e, s')
    end.

Declare Scope js_scope.
Delimit Scope js_scope with js.
Notation "'let*' x ':=' m 'in' k" := (bind m (fun x => k))
  (at level 10, x pattern, m at level 100, k at level 200) : js_scope.
Local Open Scope js_scope.

(** [try { m } catch (err) { h err }] *)
Definition try_catch {S A} (m : M S A) (h : string -> M S A) : M S A :=
  fun s =>
    match m s with
    | (Ok a, s') => (Ok a, s')
    | (Throw e, s') => h e s'
    end.

(** [try { m } finally { fin }]: [fin] runs on both exits and only
    replaces the outcome when it throws itself. *)
Definition try_finally {S A} (m : M S A) (fin : M S unit) : M S A :=
  fun s =>
    match m s with
    | (r, s') =>
        match fin s' with
        | (Ok _, s'') => (r, s'')
        | (Throw e, s'') => (Throw e, s'')
        end
    end.

Definition get {S} : M S S := fun s => (Ok s, s).
Definition modify {S} (f : S -> S) : M S unit := fun s => (Ok tt, f s).

(** ** The browser side *)

(** Parameters of the three kinds of command the client sends. *)
Inductive Params : Type :=
| NoParams
| NavigateParams (url : string)
| EvaluateParams (expression : string) (returnByValue awaitPromise : bool).

(** Calls into the [chrome.*] API. *)
Inductive Call : Type :=
| TabsCreate (url : string) (active : bool)
| DebuggerAttach (tab : nat) (version : string)
| DebuggerSendCommand (tab : nat) (method : string) (params : Params)
| DebuggerDetach (tab : nat)
| TabsRemove (tab : nat).

(** The reply to a command, as far as the client reads it:
    [exceptionDetails.text] and [result?.value]. *)
Record Reply : Type := {
  exceptionDetails : option string;
  result : option value
}.

(** What the client can observe and change outside its own objects. *)
Record World : Type := {
  calls : list Call;        (* API calls made so far, latest first *)
  now : Z;                  (* Date.now(), in milliseconds *)
  listeners : gset nat;     (* chrome.debugger.onEvent *)
  timers : gset nat;        (* armed setTimeout timers *)
  next_handle : nat         (* identity of the next closure or timer *)
}.

(** Everything the browser decides.  Each answer may depend on the whole
    world at the time of the call, the call itself included. *)
Record Browser : Type := {
  tabs_create : World -> outcome nat;
  debugger_attach : World -> outcome unit;
  debugger_sendCommand : World -> outcome Reply;
  debugger_detach : World -> outcome unit;
  tabs_remove : World -> outcome unit;
  elapsed : World -> nat;                (* time an API call takes *)
  oversleep : World -> nat;              (* lateness of a sleep timer *)
  events : World -> list (nat * string)  (* debugger events (tab, method)
                                            arriving before the deadline *)
}.

Definition record_call (c : Call) (w : World) : World :=
  {| calls := c :: calls w; now := now w; listeners := listeners w;
     timers := timers w; next_handle := next_handle w |}.

Definition advance (ms : Z) (w : World) : World :=
  {| calls := calls w; now := now w + ms; listeners := listeners w;
     timers := timers w; next_handle := next_handle w |}.

Definition addListener (l : nat) (w : World) : World :=
  {| calls := calls w; now := now w; listeners := {[l]} ∪ listeners w;
     timers := timers w; next_handle := next_handle w |}.

Definition removeListener (l : nat) (w : World) : World :=
  {| calls := calls w; now := now w; listeners := listeners w ∖ {[l]};
     timers := timers w; next_handle := next_handle w |}.

Definition armTimer (t : nat) (w : World) : World :=
  {| calls := calls w; now := now w; listeners := listeners w;
     timers := {[t]} ∪ timers w; next_handle := next_handle w |}.

Definition clearTimeout (t : nat) (w : World) : World :=
  {| calls := calls w; now := now w; listeners := listeners w;
     timers := timers w ∖ {[t]}; next_handle := next_handle w |}.

Definition fresh_handle : M World nat :=
  fun w => (Ok (next_handle w),
            {| calls := calls w; now := now w; listeners := listeners w;
               timers := timers w; next_handle := S (next_handle w) |}).

(** ** The Page class *)

Record Page : Type := {
  tabId : nat;
  _attached : bool
  (* [target] is [{ tabId }]; [_eventListeners] is never read or written *)
}.

(** [constructor(tabId)] *)
Definition new_Page (tab : nat) : Page := {| tabId := tab; _attached := false |}.

Definition PageSt : Type := Page * World.

Definition this : M PageSt Page := fun st => (Ok (fst st), st).

Definition set_attached (b : bool) : M PageSt unit :=
  modify (fun st : PageSt => ({| tabId := tabId (fst st); _attached := b |}, snd st)).

(** A computation on the world alone, run from inside a method. *)
Definition in_world {A} (m : M World A) : M PageSt A :=
  fun st =>
    match m (snd st) with
    | (r, w') => (r, (fst st, w'))
    end.

Section Client.

Variable browser : Browser.

(** An awaited API call: it is recorded, the browser answers, time passes. *)
Definition api {A} (c : Call) (answer : World -> outcome A) : M World A :=
  fun w =>
    let w1 := record_call c w in
    (answer w1, advance (Z.of_nat (elapsed browser w1)) w1).

Definition chrome_tabs_create (url : string) (active : bool) : M World nat :=
  api (TabsCreate url active) (tabs_create browser).
Definition chrome_debugger_attach (tab : nat) (version : string) : M World unit :=
  api (DebuggerAttach tab version) (debugger_attach browser).
Definition chrome_debugger_sendCommand (tab : nat) (method : string)
    (params : Params) : M World Reply :=
  api (DebuggerSendCommand tab method params) (debugger_sendCommand browser).
Definition chrome_debugger_detach (tab : nat) : M World unit :=
  api (DebuggerDetach tab) (debugger_detach browser).
Definition chrome_tabs_remove (tab : nat) : M World unit :=
  api (TabsRemove tab) (tabs_remove browser).

(** [_sendCommand(method, params)]; the [catch] logs and rethrows. *)
Definition _sendCommand (method : string) (params : Params) : M PageSt Reply :=
  let* page := this in
  if negb (_attached page) then throw "Debugger not attached"
  else
    try_catch
      (in_world (chrome_debugger_sendCommand (tabId page) method params))
      (fun err => throw err).

(** [_attach()] *)
Definition _attach : M PageSt unit :=
  let* page := this in
  if _attached page then ret tt
  else
    let* _ := in_world (chrome_debugger_attach (tabId page) "1.3") in
    let* _ := set_attached true in
    let* _ := _sendCommand "Page.enable" NoParams in
    let* _ := _sendCommand "Runtime.enable" NoParams in
    let* _ := _sendCommand "DOM.enable" NoParams in
    ret tt.

(** [createPage()]: the page object is handed out only when [_attach]
    returned. *)
Definition createPage : M World Page :=
  let* tab := chrome_tabs_create "about:blank" false in
  fun w =>
    match _attach (new_Page tab, w) with
    | (Ok _, (page, w')) => (Ok page, w')
    | (Throw e, (_, w')) => (Throw e, w')
    end.

(** [sleep(ms)]: a timer fires no earlier than asked. *)
Definition sleep (ms : Z) : M PageSt unit :=
  in_world (fun w => (Ok tt, advance (Z.max 0 ms + Z.of_nat (oversleep browser w)) w)).

(** [evaluate(expression)] *)
Definition evaluate (expression : string) : M PageSt value :=
  let* reply := _sendCommand "Runtime.evaluate" (EvaluateParams expression true true) in
  match exceptionDetails reply with
  | Some text => throw ("Evaluation failed: " +:+ text)
  | None =>
      ret (match result reply with
           | Some v => v
           | None => VUndefined
           end)
  end.

Definition getText (selector : string) : M PageSt value :=
  evaluate (Expr.getText selector).
Definition getTextAll (selector : string) : M PageSt value :=
  evaluate (Expr.getTextAll selector).
Definition getAttribute (selector attribute : string) : M PageSt value :=
  evaluate (Expr.getAttribute selector attribute).
Definition exists_ (selector : string) : M PageSt value :=
  evaluate (Expr.exists_ selector).
Definition click (selector : string) : M PageSt unit :=
  let* _ := evaluate (Expr.click selector) in ret tt.
Definition type (selector text : string) : M PageSt unit :=
  let* _ := evaluate (Expr.type selector text) in ret tt.
Definition content : M PageSt value := evaluate Expr.content.
Definition url : M PageSt value := evaluate Expr.url.

(** [close()] *)
Definition close : M PageSt unit :=
  let* page := this in
  let* _ :=
    if _attached page then
      let* _ := try_catch (in_world (chrome_debugger_detach (tabId page)))
                          (fun _ => ret tt) in
      set_attached false
    else ret tt in
  try_catch (in_world (chrome_tabs_remove (tabId page))) (fun _ => ret tt).

End Client.

(** ** Navigation: [goto] and its load promise *)

Record GotoOptions : Type := {
  timeout : option Z;
  waitUntil : option string
}.

Inductive PromiseState : Type :=
| Pending
| Fulfilled
| Rejected (reason : string).

(** The promise built at the start of [goto], with the two closures it
    owns: the event listener and the deadline timer. *)
Record LoadPromise : Type := {
  listener : nat;
  timeoutId : nat;
  settled : PromiseState
}.

(** A promise is settled once; later calls of [resolve] and [reject] do
    nothing. *)
Definition resolve (p : LoadPromise) : LoadPromise :=
  match settled p with
  | Pending => {| listener := listener p; timeoutId := timeoutId p; settled := Fulfilled |}
  | _ => p
  end.

Definition reject (reason : string) (p : LoadPromise) : LoadPromise :=
  match settled p with
  | Pending => {| listener := listener p; timeoutId := timeoutId p;
                  settled := Rejected reason |}
  | _ => p
  end.

(** [setTimeout(callback, ms)] arms a timer and returns its id. *)
Definition setTimeout : M World nat :=
  let* t := fresh_handle in
  let* _ := modify (armTimer t) in
  ret t.

(** The executor: [setTimeout(..., timeout)], then [addListener(listener)]. *)
Definition new_load_promise : M World LoadPromise :=
  let* t := setTimeout in
  let* l := fresh_handle in
  let* _ := modify (addListener l) in
  ret {| listener := l; timeoutId := t; settled := Pending |}.

(** Body of the deadline callback. *)
Definition on_timeout (timeout : Z) (st : LoadPromise * World) : LoadPromise * World :=
  let (p, w) := st in
  (reject ("Navigation timeout after " +:+ Js.string_of_Z timeout +:+ "ms") p,
   removeListener (listener p) w).

(** Body of [listener(source, method, params)]. *)
Definition on_event (tab : nat) (source : nat) (method : string)
    (st : LoadPromise * World) : LoadPromise * World :=
  let (p, w) := st in
  if negb (source =? tab)%nat then st
  else if String.eqb method "Page.loadEventFired"
          || String.eqb method "Page.domContentEventFired"
  then (resolve p, removeListener (listener p) (clearTimeout (timeoutId p) w))
  else st.

(** What can happen while the promise is awaited. *)
Inductive Occurrence : Type :=
| DebuggerEvent (source : nat) (method : string)
| TimerExpires (id : nat).

(** The event loop runs a callback only while it is registered: the
    listener while it is on [chrome.debugger.onEvent], the deadline
    callback when its own timer expires while still armed. *)
Definition deliver (tab : nat) (timeout : Z) (st : LoadPromise * World)
    (o : Occurrence) : LoadPromise * World :=
  let (p, w) := st in
  match o with
  | DebuggerEvent source method =>
      if decide (listener p ∈ listeners w)
      then on_event tab source method st
      else st
  | TimerExpires id =>
      if decide (id = timeoutId p ∧ id ∈ timers w)
      then on_timeout timeout (p, clearTimeout id w)
      else st
  end.

Definition deliver_all (tab : nat) (timeout : Z) (occs : list Occurrence)
    (st : LoadPromise * World) : LoadPromise * World :=
  fold_left (deliver tab timeout) occs st.

Section Navigation.

Variable browser : Browser.

(** The occurrences during [await loadPromise]: the debugger events the
    browser emits before the deadline, then the deadline itself.  (The
    clock is only read by [waitForSelector], which samples it afresh, so
    the time spent waiting here is not added to it.) *)
Definition schedule (p : LoadPromise) (w : World) : list Occurrence :=
  map (fun e => DebuggerEvent (fst e) (snd e)) (events browser w)
  ++ [TimerExpires (timeoutId p)].

(** [goto(url, options)] *)
Definition goto (url : string) (options : GotoOptions) : M PageSt unit :=
  let timeout := default 30000 (timeout options) in
  let waitUntil := default "load" (waitUntil options) in
  let* page := this in
  let* loadPromise := in_world new_load_promise in
  let* _ := _sendCommand browser "Page.navigate" (NavigateParams url) in
  let* _ :=
    in_world (fun w =>
      match deliver_all (tabId page) timeout (schedule loadPromise w) (loadPromise, w) with
      | (p, w') =>
          match settled p with
          | Rejected reason => (Throw reason, w')
          | _ => (Ok tt, w')
          end
      end) in
  sleep browser 500.

End Navigation.

(** ** Polling: [waitForSelector] *)

Record WaitOptions : Type := {
  wait_timeout : option Z;   (* [timeout] *)
  interval : option Z
}.

Section Polling.

Variable browser : Browser.

(** The [while] loop.  Each turn reads the clock, evaluates the existence
    check and sleeps; [fuel] bounds the number of turns, and [None] means
    the loop was still running when it ran out. *)
Fixpoint waitForSelector_loop (fuel : nat) (selector : string)
    (startTime timeout interval : Z) (st : PageSt)
    : option (outcome unit * PageSt) :=
  match fuel with
  | O => None
  | S fuel' =>
      if now (snd st) - startTime <? timeout then
        match evaluate browser (Expr.waitForSelector selector) st with
        | (Throw e, st') => Some (Throw e, st')
        | (Ok found, st') =>
            if truthy found then Some (Ok tt, st')
            else
              match sleep browser interval st' with
              | (_, st'') =>
                  waitForSelector_loop fuel' selector startTime timeout interval st''
              end
        end
      else Some (Throw ("Timeout waiting for selector: " +:+ selector), st)
  end.

(** [waitForSelector(selector, options)] *)
Definition waitForSelector (fuel : nat) (selector : string) (options : WaitOptions)
    (st : PageSt) : option (outcome unit * PageSt) :=
  let timeout := default 10000 (wait_timeout options) in
  let interval := default 100 (interval options) in
  let startTime := now (snd st) in
  waitForSelector_loop fuel selector startTime timeout interval st.

End Polling.

(** Number of existence checks (script evaluations) in a call log. *)
Definition is_evaluation (c : Call) : bool :=
  match c with
  | DebuggerSendCommand _ method _ => String.eqb method "Runtime.evaluate"
  | _ => false
  end.

Definition evaluations (w : World) : nat :=
  length (List.filter is_evaluation (calls w)).

(** ** The public operations of a session *)

Inductive Op : Type :=
| OpGoto (url : string) (options : GotoOptions)
| OpWaitForSelector (selector : string) (options : WaitOptions)
| OpEvaluate (expression : string)
| OpGetText (selector : string)
| OpGetTextAll (selector : string)
| OpGetAttribute (selector attribute : string)
| OpExists (selector : string)
| OpClick (selector : string)
| OpType (selector text : string)
| OpContent
| OpUrl
| OpSleep (ms : Z)
| OpClose.

Section Operations.

Variable browser : Browser.

Definition discard {A} (m : M PageSt A) : PageSt -> option (outcome unit * PageSt) :=
  fun st =>
    match m st with
    | (Ok _, st') => Some (Ok tt, st')
    | (Throw e, st') => Some (Throw e, st')
    end.

Definition run_op (fuel : nat) (op : Op) : PageSt -> option (outcome unit * PageSt) :=
  match op with
  | OpGoto u o => discard (goto browser u o)
  | OpWaitForSelector s o => waitForSelector browser fuel s o
  | OpEvaluate e => discard (evaluate browser e)
  | OpGetText s => discard (getText browser s)
  | OpGetTextAll s => discard (getTextAll browser s)
  | OpGetAttribute s a => discard (getAttribute browser s a)
  | OpExists s => discard (exists_ browser s)
  | OpClick s => discard (click browser s)
  | OpType s t => discard (type browser s t)
  | OpContent => discard (content browser)
  | OpUrl => discard (url browser)
  | OpSleep ms => discard (sleep browser ms)
  | OpClose => discard (close browser)
  end.

(** The states a session goes through when a caller performs [ops] one
    after the other, whatever each of them returns or throws; the trace
    stops at an operation that does not return within [fuel]. *)
Fixpoint run_ops (fuel : nat) (ops : list Op) (st : PageSt) : list PageSt :=
  match ops with
  | [] => []
  | op :: ops' =>
      match run_op fuel op st with
      | None => []
      | Some (_, st') => st' :: run_ops fuel ops' st'
      end
  end.

(** The life of a session: constructed, attached by [createPage], then
    driven through the public operations. *)
Definition life (fuel : nat) (tab : nat) (ops : list Op) (w : World) : list PageSt :=
  let s0 := (new_Page tab, w) in
  let s1 := snd (_attach browser s0) in
  s0 :: s1 :: run_ops fuel ops s1.

End Operations.

(** ** The scrapers *)

Record Site : Type := {
  page_url : string;          (* the address before the [ip] *)
  settle : Z;                 (* the pause after navigation *)
  extraction : string;        (* the script evaluated in the page *)
  fallback : string           (* message used when the error has none *)
}.

Section Scrapers.

Variable browser : Browser.

(** The local variable [page] of a scraper, next to the world. *)
Definition ScraperSt : Type := option Page * World.

Definition assign_page (p : Page) : M ScraperSt unit :=
  modify (fun st : ScraperSt => (Some p, snd st)).

Definition outside {A} (m : M World A) : M ScraperSt A :=
  fun st =>
    match m (snd st) with
    | (r, w') => (r, (fst st, w'))
    end.

(** A method call on the object [page] refers to. *)
Definition on_page {A} (m : M PageSt A) : M ScraperSt A :=
  fun st =>
    match fst st with
    | None => (Throw "Cannot read properties of null", st)
    | Some p =>
        match m (p, snd st) with
        | (r, (p', w')) => (r, (Some p', w'))
        end
    end.

(** The shape shared by [scrapeVirusTotal], [scrapeIPInfo] and
    [scrapeAbuseIPDB]: [try { ... } catch (err) { ... } finally { ... }]
    around [createPage], [goto], [sleep] and [evaluate]. *)

(** The statements of the [try] block that follow [page = await createPage()]. *)
Definition scrape_steps (site : Site) (ip : string) : M ScraperSt value :=
  let url := page_url site +:+ ip in
  let* _ := on_page (goto browser url {| timeout := Some 30000; waitUntil := None |}) in
  let* _ := on_page (sleep browser (settle site)) in
  let* data := on_page (evaluate browser (extraction site)) in
  ret data.

Definition scrape_try (site : Site) (ip : string) : M ScraperSt value :=
  let* p := outside (createPage browser) in
  let* _ := assign_page p in
  scrape_steps site ip.

(** [catch (err) { return { error: err.message || fallback } }] *)
Definition scrape_catch (site : Site) (err : string) : M ScraperSt value :=
  ret (VObj [("error", VStr (if String.eqb err "" then fallback site else err))]).

(** [finally { if (page) { await page.close() } }] *)
Definition scrape_finally : M ScraperSt unit :=
  let* st := get in
  match fst st with
  | Some _ => on_page (close browser)
  | None => ret tt
  end.

Definition scrape (site : Site) (ip : string) : M World value :=
  fun w =>
    match
      try_finally (try_catch (scrape_try site ip) (scrape_catch site)) scrape_finally
        (None, w)
    with
    | (r, (_, w')) => (r, w')
    end.

Variables vt_script ipinfo_script abuseipdb_script : string.

Definition scrapeVirusTotal : string -> M World value :=
  scrape {| page_url := "https://www.virustotal.com/gui/ip-address/";
            settle := 6000; extraction := vt_script;
            fallback := "Failed to scrape VirusTotal" |}.

Definition scrapeIPInfo : string -> M World value :=
  scrape {| page_url := "https://ipinfo.io/";
            settle := 2000; extraction := ipinfo_script;
            fallback := "Failed to scrape IPInfo" |}.

Definition scrapeAbuseIPDB : string -> M World value :=
  scrape {| page_url := "https://www.abuseipdb.com/check/";
            settle := 3000; extraction := abuseipdb_script;
            fallback := "Failed to scrape AbuseIPDB" |}.

End Scrapers.

(** ** Regular expressions, for [isValidIP]

    The built-in matcher, for the fragment the code uses: character
    classes, sequence, alternation, [?] and [{n}], anchored at both ends
    ([/^...$/.test(s)]). *)

Module Regex.

Inductive regex : Type :=
| Void
| Eps
| Sym (accepts : ascii -> bool)
| Seq (r s : regex)
| Alt (r s : regex).

(** [r?] *)
Definition Opt (r : regex) : regex := Alt r Eps.

(** [r{n}] *)
Fixpoint Times (n : nat) (r : regex) : regex :=
  match n with
  | O => Eps
  | S n' => Seq r (Times n' r)
  end.

(** A literal character, and a class [[lo-hi]]. *)
Definition Chr (c : ascii) : regex := Sym (Ascii.eqb c).
Definition Range (lo hi : ascii) : regex :=
  Sym (fun c => (nat_of_ascii lo <=? nat_of_ascii c)%nat
                && (nat_of_ascii c <=? nat_of_ascii hi)%nat).

Fixpoint nullable (r : regex) : bool :=
  match r with
  | Void => false
  | Eps => true
  | Sym _ => false
  | Seq r1 r2 => nullable r1 && nullable r2
  | Alt r1 r2 => nullable r1 || nullable r2
  end.

(** What is left of [r] to match once [c] has been read. *)
Fixpoint deriv (c : ascii) (r : regex) : regex :=
  match r with
  | Void => Void
  | Eps => Void
  | Sym accepts => if accepts c then Eps else Void
  | Seq r1 r2 =>
      if nullable r1
      then Alt (Seq (deriv c r1) r2) (deriv c r2)
      else Seq (deriv c r1) r2
  | Alt r1 r2 => Alt (deriv c r1) (deriv c r2)
  end.

(** [/^r$/.test(s)] *)
Fixpoint test (r : regex) (s : string) : bool :=
  match s with
  | EmptyString => nullable r
  | String c rest => test (deriv c r) rest
  end.

End Regex.

(** ** The popup: input validation and score classes ([popup.js]) *)

Module Popup.
Import Regex.

(** [(?:25[0-5]|2[0-4][0-9]|[01]?[0-9][0-9]?)] *)
Definition octetRegex : regex :=
  Alt (Seq (Chr "2") (Seq (Chr "5") (Range "0" "5")))
    (Alt (Seq (Chr "2") (Seq (Range "0" "4") (Range "0" "9")))
       (Seq (Opt (Range "0" "1")) (Seq (Range "0" "9") (Opt (Range "0" "9"))))).

(** [/^(?:octet\.){3}octet$/] *)
Definition ipRegex : regex :=
  Seq (Times 3 (Seq octetRegex (Chr "."))) octetRegex.

Definition isValidIP (ip : string) : bool := test ipRegex ip.

(** A score as the popup receives it: absent, [null], or a number, which
    is an integer or [NaN] (the scores come from [parseInt]). *)
Inductive score : Type :=
| ScoreUndefined
| ScoreNull
| ScoreNaN
| ScoreInt (n : Z).

(** Comparisons with [NaN] are false. *)
Definition score_ge (s : score) (k : Z) : bool :=
  match s with
  | ScoreInt n => k <=? n
  | _ => false
  end.

Definition score_lt (s : score) (k : Z) : bool :=
  match s with
  | ScoreInt n => n <? k
  | _ => false
  end.

(** [getScoreClass(score, type)] *)
Definition getScoreClass (s : score) (type : string) : string :=
  match s with
  | ScoreUndefined | ScoreNull => ""
  | _ =>
      if String.eqb type "abuse" then
        if score_ge s 50 then "danger"
        else if score_ge s 20 then "warning"
        else "safe"
      else if String.eqb type "reputation" then
        if score_lt s (-10) then "danger"
        else if score_lt s 0 then "warning"
        else "safe"
      else ""
  end.

End Popup.

(** ** Error classification ([classifyError], [getUserFriendlyMessage]) *)

Module Errors.

(** [String.prototype.toLowerCase] on code units below 256: the letters
    A-Z and the Latin-1 capitals (all of 192..222 but the multiplication
    sign 215) move up by 32. *)
Definition lower_char (c : ascii) : ascii :=
  let n := nat_of_ascii c in
  if ((65 <=? n) && (n <=? 90)
      || (192 <=? n) && (n <=? 222) && negb (n =? 215))%nat
  then ascii_of_nat (n + 32)
  else c.

Fixpoint toLowerCase (s : string) : string :=
  match s with
  | EmptyString => EmptyString
  | String c rest => String (lower_char c) (toLowerCase rest)
  end.

(** [hay.includes(needle)] *)
Definition includes (hay needle : string) : bool :=
  match Js.after needle hay with
  | Some _ => true
  | None => false
  end.

(** [ErrorTypes] *)
Definition TIMEOUT : string := "TIMEOUT".
Definition NETWORK : string := "NETWORK".
Definition BLOCKED : string := "BLOCKED".
Definition PARSE : string := "PARSE".
Definition DEBUGGER : string := "DEBUGGER".
Definition UNKNOWN : string := "UNKNOWN".

(** [classifyError(error)], on [error.message] ([None] when the error has
    no message): [error.message?.toLowerCase() || ''] and the chain of
    [includes] tests. *)
Definition classifyError (error_message : option string) : string :=
  let message :=
    match error_message with
    | Some m => toLowerCase m
    | None => ""
    end in
  if includes message "timeout" then TIMEOUT
  else if includes message "net::" || includes message "network" then NETWORK
  else if includes message "captcha" || includes message "blocked"
          || includes message "403" then BLOCKED
  else if includes message "parse" || includes message "json" then PARSE
  else if includes message "debugger" || includes message "attach" then DEBUGGER
  else UNKNOWN.

(** The object literal [messages] of [getUserFriendlyMessage]. *)
Definition messages (source : string) : list (string * string) :=
  [ ("TIMEOUT", source +:+ " took too long to respond");
    ("NETWORK", "Could not connect to " +:+ source);
    ("BLOCKED", source +:+ " is blocking automated access");
    ("PARSE", "Failed to read " +:+ source +:+ " data");
    ("DEBUGGER", "Browser automation failed - try reloading the extension");
    ("UNKNOWN", source +:+ " lookup failed") ].

(** The names every object literal inherits from [Object.prototype]. *)
Definition object_prototype_names : list string :=
  [ "constructor"; "__defineGetter__"; "__defineSetter__"; "hasOwnProperty";
    "__lookupGetter__"; "__lookupSetter__"; "isPrototypeOf";
    "propertyIsEnumerable"; "toString"; "valueOf"; "__proto__";
    "toLocaleString" ].

Fixpoint own (key : string) (object : list (string * string)) : option string :=
  match object with
  | [] => None
  | (k, v) :: rest => if String.eqb key k then Some v else own key rest
  end.

(** [getUserFriendlyMessage(errorType, source)]: [messages[errorType] ||
    messages.UNKNOWN].  An own entry that is the empty string is falsy.
    For a name inherited from [Object.prototype] the lookup yields that
    member, which is not a string: [None]. *)
Definition getUserFriendlyMessage (errorType source : string) : option string :=
  let unknown := source +:+ " lookup failed" in
  match own errorType (messages source) with
  | Some m => Some (if String.eqb m "" then unknown else m)
  | None =>
      if existsb (String.eqb errorType) object_prototype_names
      then None
      else Some unknown
  end.

End Errors.

(** ** The background worker: [processResult] and [handleRetry] *)

(** A result of [Promise.allSettled]; of a rejection only
    [reason?.message] is read. *)
Inductive Settled : Type :=
| SettledFulfilled (v : value)
| SettledRejected (reason_message : option string).

(** [processResult(result, source)] *)
Definition processResult (settled_result : Settled) (source : string) : value :=
  match settled_result with
  | SettledFulfilled v => v
  | SettledRejected reason_message =>
      let text :=
        match reason_message with
        | Some m => if String.eqb m "" then "Unknown error" else m
        | None => "Unknown error"
        end in
      VObj [("error", VStr ("Failed to fetch data from " +:+ source +:+ ": " +:+ text))]
  end.

(** How a promise settles, from the outcome of the awaited function. *)
Definition settled_as (r : outcome value) : Settled :=
  match r with
  | Ok v => SettledFulfilled v
  | Throw e => SettledRejected (Some e)
  end.

Section Background.

Variable browser : Browser.
Variables vt_script ipinfo_script abuseipdb_script : string.

(** [scrapers[source]]: one of the three scrapers, nothing, or a member
    inherited from [Object.prototype], which is not a scraper ([None]
    for the whole call). *)
Definition handleRetry (ip source : string) (w : World) : option (outcome value * World) :=
  let scraper : option (option (string -> M World value)) :=
    if String.eqb source "virustotal" then Some (Some (scrapeVirusTotal browser vt_script))
    else if String.eqb source "ipinfo" then Some (Some (scrapeIPInfo browser ipinfo_script))
    else if String.eqb source "abuseipdb"
    then Some (Some (scrapeAbuseIPDB browser abuseipdb_script))
    else if existsb (String.eqb source) Errors.object_prototype_names then None
    else Some None in
  match scraper with
  | None => None
  | Some None => Some (Ok (VObj [("error", VStr "Unknown source")]), w)
  | Some (Some scrape_source) =>
      Some (try_catch (scrape_source ip)
              (fun err =>
                 ret (VObj [("error", VStr (if String.eqb err "" then "Retry failed"
                                            else err))])) w)
  end.

End Background.

(** ** Sample browsers and worlds, for the examples below *)

Module Sample.

Definition empty_world : World :=
  {| calls := []; now := 0; listeners := ∅; timers := ∅; next_handle := 0 |}.

Definition reply (v : value) : Reply :=
  {| exceptionDetails := None; result := Some v |}.

(** Every call succeeds at once, every evaluation answers [false], and
    the only event is the DOM-ready notification of tab 7. *)
Definition steady : Browser :=
  {| tabs_create := fun _ => Ok 7%nat;
     debugger_attach := fun _ => Ok tt;
     debugger_sendCommand := fun _ => Ok (reply (VBool false));
     debugger_detach := fun _ => Ok tt;
     tabs_remove := fun _ => Ok tt;
     elapsed := fun _ => 0%nat;
     oversleep := fun _ => 0%nat;
     events := fun _ => [(7%nat, "Page.domContentEventFired")] |}.

(** As [steady], but every call takes a full second. *)
Definition slow : Browser :=
  {| tabs_create := fun _ => Ok 7%nat;
     debugger_attach := fun _ => Ok tt;
     debugger_sendCommand := fun _ => Ok (reply (VBool false));
     debugger_detach := fun _ => Ok tt;
     tabs_remove := fun _ => Ok tt;
     elapsed := fun _ => 1000%nat;
     oversleep := fun _ => 0%nat;
     events := fun _ => [] |}.

(** The tab opens and the debugger attaches, but every command is
    rejected (the tab went away right after the attach). *)
Definition rejecting : Browser :=
  {| tabs_create := fun _ => Ok 7%nat;
     debugger_attach := fun _ => Ok tt;
     debugger_sendCommand := fun _ => Throw "Target closed";
     debugger_detach := fun _ => Ok tt;
     tabs_remove := fun _ => Ok tt;
     elapsed := fun _ => 0%nat;
     oversleep := fun _ => 0%nat;
     events := fun _ => [] |}.

End Sample.

(** ** Vocabulary of the properties *)

Section Vocabulary.

Variable browser : Browser.

(** The world right after [c] was recorded, and once the call is over. *)
Definition during (c : Call) (w : World) : World := record_call c w.
Definition once_done (c : Call) (w : World) : World :=
  advance (Z.of_nat (elapsed browser (during c w))) (during c w).

(** What [close] does, whatever the browser answers: the detach is
    attempted only on an attached page, the removal of the tab always;
    both failures are swallowed and the page ends up detached. *)
Definition closed_page (p : Page) : Page :=
  {| tabId := tabId p; _attached := false |}.

Definition closed_world (p : Page) (w : World) : World :=
  once_done (TabsRemove (tabId p))
    (if _attached p then once_done (DebuggerDetach (tabId p)) w else w).

(** The reply of an evaluation, as [evaluate] hands it to its caller. *)
Definition unwrap (reply : Reply) : outcome value :=
  match exceptionDetails reply with
  | Some text => Throw ("Evaluation failed: " +:+ text)
  | None => Ok (default VUndefined (result reply))
  end.

(** The selector never appears: every evaluation returns normally with a
    falsy value. *)
Definition never_appears : Prop :=
  forall w : World,
    exists reply,
      debugger_sendCommand browser w = Ok reply
      /\ exceptionDetails reply = None
      /\ truthy (default VUndefined (result reply)) = false.

(** A check and the sleep that follows it overrun the polling interval
    by at most [slack] milliseconds. *)
Definition overrun_at_most (slack : nat) : Prop :=
  forall w1 w2 : World, (elapsed browser w1 + oversleep browser w2 <= slack)%nat.

(** The commands [_attach] sends once the debugger is attached. *)
Definition enable_domains : M PageSt unit :=
  let* _ := _sendCommand browser "Page.enable" NoParams in
  let* _ := _sendCommand browser "Runtime.enable" NoParams in
  let* _ := _sendCommand browser "DOM.enable" NoParams in
  ret tt.

End Vocabulary.

(** Operations that send a command when performed: all but [sleep] and
    [close]; [waitForSelector] when its deadline lets the loop start. *)
Definition sends_command (op : Op) : bool :=
  match op with
  | OpSleep _ | OpClose => false
  | OpWaitForSelector _ o => 0 <? default 10000 (wait_timeout o)
  | _ => true
  end.

(** The state of a wait with closures [l] and [t], started when the
    registry held [registry]: either still pending with both closures in
    place, or settled with both gone. *)
Definition wait_inv (timeout : Z) (l t : nat) (registry : gset nat)
    (st : LoadPromise * World) : Prop :=
  listener (fst st) = l /\ timeoutId (fst st) = t
  /\ ((settled (fst st) = Pending
       /\ (l ∈ listeners (snd st)) /\ (t ∈ timers (snd st))
       /\ (listeners (snd st) ∖ {[l]}) = (registry ∖ {[l]}))
      \/ ((settled (fst st) = Fulfilled
           \/ settled (fst st)
              = Rejected ("Navigation timeout after " +:+ Js.string_of_Z timeout +:+ "ms"))
          /\ (l ∉ listeners (snd st)) /\ (t ∉ timers (snd st))
          /\ listeners (snd st) = (registry ∖ {[l]}))).

(** Protocol commands, among the calls of the log. *)
Definition is_command (c : Call) : bool :=
  match c with
  | DebuggerSendCommand _ _ _ => true
  | _ => false
  end.

(** The commands transmitted so far. *)
Definition commands (w : World) : list Call := List.filter is_command (calls w).

(** [w'] is [w] after some more calls, all of them commands. *)
Definition only_commands (w w' : World) : Prop :=
  exists added : list Call,
    calls w' = added ++ calls w /\ Forall (fun c => is_command c = true) added.

(** A method is quiet when it returns the page object as it found it,
    adds nothing but commands to the log, and adds nothing at all on a
    detached page. *)
Definition quiet {A} (m : M PageSt A) : Prop :=
  forall (p : Page) (w : World),
    fst (snd (m (p, w))) = p
    /\ only_commands w (snd (snd (m (p, w))))
    /\ (_attached p = false -> calls (snd (snd (m (p, w)))) = calls w).

(** A computation on the world that makes no call. *)
Definition silent {A} (f : M World A) : Prop :=
  forall w : World, calls (snd (f w)) = calls w.

(** The attached flag of the session in state [s]. *)
Definition flag (s : PageSt) : bool := _attached (fst s).

(** What one step of a session's life may do to the flag and to the
    commands: detached it stays detached and transmits nothing; attached
    it stays attached unless the operation is [close]. *)
Definition step_ok (op : Op) (s s' : PageSt) : Prop :=
  (flag s = false -> flag s' = false /\ commands (snd s') = commands (snd s))
  /\ (flag s = true -> flag s' = false -> op = OpClose).

(** *** Vocabulary for the properties of the other files *)

(** The strings a regular expression stands for. *)
Fixpoint denote (r : Regex.regex) (s : string) : Prop :=
  match r with
  | Regex.Void => False
  | Regex.Eps => s = EmptyString
  | Regex.Sym accepts => exists c, s = String c EmptyString /\ accepts c = true
  | Regex.Seq r1 r2 => exists a b, s = a +:+ b /\ denote r1 a /\ denote r2 b
  | Regex.Alt r1 r2 => denote r1 s \/ denote r2 s
  end.

(** A decimal digit, and the number a string of digits writes. *)
Definition is_digit (c : ascii) : bool :=
  ((48 <=? nat_of_ascii c) && (nat_of_ascii c <=? 57))%nat.

Fixpoint all_digits (s : string) : bool :=
  match s with
  | EmptyString => true
  | String c rest => is_digit c && all_digits rest
  end.

Fixpoint decimal (acc : nat) (s : string) : nat :=
  match s with
  | EmptyString => acc
  | String c rest => decimal (10 * acc + (nat_of_ascii c - 48)) rest
  end.

(** One to three digits that write a number up to 255 (leading zeros
    allowed). *)
Definition is_octet (s : string) : bool :=
  (all_digits s && (1 <=? String.length s) && (String.length s <=? 3)
   && (decimal 0 s <=? 255))%nat.

(** Number of single quotes in a string. *)
Fixpoint quotes (s : string) : nat :=
  match s with
  | EmptyString => 0
  | String c rest => ((if Ascii.eqb c "'" then 1 else 0) + quotes rest)%nat
  end.

(** Requests for the removal of tab [tab] in a call log. *)
Definition is_removal (tab : nat) (c : Call) : bool :=
  match c with
  | TabsRemove t => (t =? tab)%nat
  | _ => false
  end.

Definition removals (tab : nat) (w : World) : nat :=
  length (List.filter (is_removal tab) (calls w)).

(** The debugger events of a list, as occurrences of the event loop. *)
Definition debugger_events (evs : list (nat * string)) : list Occurrence :=
  map (fun e => DebuggerEvent (fst e) (snd e)) evs.

(** An event that ends the navigation wait of tab [tab]. *)
Definition is_load_signal (tab : nat) (e : nat * string) : bool :=
  (fst e =? tab)%nat
  && (String.eqb (snd e) "Page.loadEventFired"
      || String.eqb (snd e) "Page.domContentEventFired").

(** * Properties *)

(** Sequencing, when the outcome of the first computation is known. *)
Lemma bind_ok {S A B} (m : M S A) (k : A -> M S B) (s s' : S) (a : A) :
  m s = (Ok a, s') -> bind m k s = k a s'.
Proof. intros H. unfold bind. rewrite H. reflexivity. Qed.

Lemma bind_throw {S A B} (m : M S A) (k : A -> M S B) (s s' : S) (e : string) :
  m s = (Throw e, s') -> bind m k s = (Throw e, s').
Proof. intros H. unfold bind. rewrite H. reflexivity. Qed.

(** ** Escaping of interpolated arguments *)

Module EscapeFacts.
Import Js.

Lemma append_cons (c : ascii) (s t : string) :
  String c s +:+ t = String c (s +:+ t).
Proof. reflexivity. Qed.

Lemma strip_prefix_app (p r : string) : strip_prefix p (p +:+ r) = Some r.
Proof.
  induction p as [|a p IH]; [reflexivity|].
  rewrite append_cons. cbn [strip_prefix].
  rewrite Ascii.eqb_refl. exact IH.
Qed.

Lemma plain_cons (c : ascii) (s : string) :
  plain (String c s) = true ->
  Ascii.eqb c "\" = false /\ is_line_terminator c = false /\ plain s = true.
Proof.
  simpl. intros H.
  apply andb_prop in H as [H Hs]. apply andb_prop in H as [Hb Hl].
  apply negb_true_iff in Hb. apply negb_true_iff in Hl. auto.
Qed.

(** The lexer ends the literal exactly at the quote the template put
    after the escaped value. *)
Lemma scan_escaped (s tail : string) :
  plain s = true ->
  scan_literal (escape_quotes s +:+ String "'" tail) = Some (escape_quotes s, tail).
Proof.
  induction s as [|c s IH]; intros Hp.
  - reflexivity.
  - apply plain_cons in Hp as (Hb & Hl & Hs). specialize (IH Hs).
    cbn [escape_quotes]. destruct (Ascii.eqb c "'") eqn:Hq.
    + rewrite !append_cons. cbn [scan_literal].
      change (Ascii.eqb "\" "'") with false. change (Ascii.eqb "\" "\") with true.
      cbv iota. rewrite IH. reflexivity.
    + rewrite append_cons. cbn [scan_literal]. rewrite Hq, Hb, Hl, IH. reflexivity.
Qed.

(** Decoding the escaped value gives the value back. *)
Lemma cooked_escaped (s : string) :
  plain s = true -> cooked (escape_quotes s) = Some s.
Proof.
  induction s as [|c s IH]; intros Hp.
  - reflexivity.
  - apply plain_cons in Hp as (Hb & Hl & Hs). specialize (IH Hs).
    cbn [escape_quotes]. destruct (Ascii.eqb c "'") eqn:Hq.
    + apply Ascii.eqb_eq in Hq. subst c. cbn. rewrite IH. reflexivity.
    + cbn [cooked]. rewrite Hb, IH. reflexivity.
Qed.

Lemma literal_after_escaped (marker pre s tail : string) :
  (forall r, after marker (pre +:+ r) = Some r) ->
  plain s = true ->
  literal_after marker (pre +:+ escape_quotes s +:+ String "'" tail) = Some (s, tail).
Proof.
  intros Hpre Hp. unfold literal_after.
  rewrite Hpre, (scan_escaped _ _ Hp), (cooked_escaped _ Hp). reflexivity.
Qed.

Ltac escaped_literal :=
  apply literal_after_escaped; [intros r; vm_compute; reflexivity | assumption].

(** The escaping leaves a backslash alone, so a backslash in front of a
    quote un-escapes it. *)
Lemma backslash_quote_splits_literal :
  literal_after "querySelector('" (Expr.exists_ "a\'b") = Some ("a\", "b')").
Proof. reflexivity. Qed.

(** [getAttribute] interpolates [attribute] unescaped: a quote in it ends
    the literal, although [type] escapes both of its arguments. *)
Lemma getAttribute_attribute_is_raw (selector attribute : string) :
  Expr.getAttribute selector attribute =
  "
      (function() {
        const el = document.querySelector('" +:+ escape_quotes selector +:+ "');
        return el ? el.getAttribute('" +:+ attribute +:+ "') : null;
      })()
    ".
Proof. reflexivity. Qed.

Lemma getAttribute_quote_ends_literal :
  literal_after "getAttribute('" (Expr.getAttribute "a" "x'y")
  = Some ("x", "y') : null;
      })()
    ").
Proof. reflexivity. Qed.

End EscapeFacts.

(** C2, as the claim states it, fails: for the selector [a\'b] (which
    contains a single quote) the literal generated by [exists] does not
    read back as the selector followed by the rest of the template. *)
Lemma C2_escaping_counterexample :
  Js.literal_after "querySelector('" (Expr.exists_ "a\'b")
  <> Some ("a\'b", ")").
Proof. rewrite EscapeFacts.backslash_quote_splits_literal. discriminate. Qed.

(** C2 (amended): for every selector and text argument without a backslash
    or line terminator, [getText], [getTextAll], [exists], [click], [type]
    and, for its selector, [getAttribute] (and the check of
    [waitForSelector]) interpolate the argument with its single quotes
    escaped, so that the string literal in the generated expression reads
    back as exactly the argument and is followed by exactly the rest of
    the template. *)
Theorem C2_escaped_arguments_stay_inside_their_literal
    (selector text attribute : string) :
  Js.plain selector = true ->
  Js.plain text = true ->
  Js.literal_after "querySelector('" (Expr.exists_ selector) = Some (selector, ")")
  /\ Js.literal_after "querySelector('" (Expr.waitForSelector selector)
     = Some (selector, ")")
  /\ Js.literal_after "querySelector('" (Expr.getText selector)
     = Some (selector, ");
        return el ? el.textContent.trim() : null;
      })()
    ")
  /\ Js.literal_after "querySelectorAll('" (Expr.getTextAll selector)
     = Some (selector, ");
        return Array.from(els).map(el => el.textContent.trim());
      })()
    ")
  /\ Js.literal_after "querySelector('" (Expr.click selector)
     = Some (selector, ");
        if (el) el.click();
      })()
    ")
  /\ Js.literal_after "querySelector('" (Expr.getAttribute selector attribute)
     = Some (selector, ");
        return el ? el.getAttribute('" +:+ attribute +:+ "') : null;
      })()
    ")
  /\ (exists rest,
        Js.literal_after "querySelector('" (Expr.type selector text)
        = Some (selector, rest)
        /\ Js.literal_after "el.value = '" rest
           = Some (text, ";
          el.dispatchEvent(new Event('input', { bubbles: true }));
        }
      })()
    ")).
Proof.
  intros Hs Ht. unfold Expr.exists_, Expr.waitForSelector, Expr.getText,
    Expr.getTextAll, Expr.click, Expr.getAttribute, Expr.type.
  cbv zeta.
  repeat split; try EscapeFacts.escaped_literal.
  eexists. split; [EscapeFacts.escaped_literal|].
  apply (EscapeFacts.literal_after_escaped "el.value = '" ");
        if (el) {
          el.value = '" text); [intros r; vm_compute; reflexivity | assumption].
Qed.

(** The round trip of the selector [a[title='x']] and of a text with a
    quote. *)
Lemma C2_escaped_arguments_witness :
  Js.literal_after "querySelector('" (Expr.exists_ "a[title='x']")
  = Some ("a[title='x']", ")")
  /\ Js.literal_after "querySelector('" (Expr.getText "a[title='x']")
     = Some ("a[title='x']", ");
        return el ? el.textContent.trim() : null;
      })()
    ").
Proof.
  destruct (C2_escaped_arguments_stay_inside_their_literal
              "a[title='x']" "it's" "href" eq_refl eq_refl)
    as (H1 & _ & H3 & _).
  split; [exact H1 | exact H3].
Defined.

(** ** The attachment guard and the commands that reach the browser *)

Section GuardFacts.

Variable browser : Browser.

Lemma _sendCommand_detached (method : string) (params : Params) (p : Page) (w : World) :
  _attached p = false ->
  _sendCommand browser method params (p, w) = (Throw "Debugger not attached", (p, w)).
Proof. intros H. unfold _sendCommand, bind, this. simpl. rewrite H. reflexivity. Qed.

(** Attached, the command is transmitted once and its outcome is handed
    to the caller unchanged. *)
Lemma _sendCommand_attached (method : string) (params : Params) (p : Page) (w : World) :
  _attached p = true ->
  let c := DebuggerSendCommand (tabId p) method params in
  _sendCommand browser method params (p, w)
  = (debugger_sendCommand browser (during c w), (p, once_done browser c w)).
Proof.
  intros H c. unfold _sendCommand, bind, this, once_done, during. simpl.
  rewrite H. simpl.
  unfold try_catch, in_world, chrome_debugger_sendCommand, api, throw. simpl.
  fold c. destruct (debugger_sendCommand browser (record_call c w)); reflexivity.
Qed.

Lemma evaluate_detached (expression : string) (p : Page) (w : World) :
  _attached p = false ->
  evaluate browser expression (p, w) = (Throw "Debugger not attached", (p, w)).
Proof.
  intros H. unfold evaluate, bind. rewrite _sendCommand_detached by exact H. reflexivity.
Qed.

Lemma discard_throw {A} (m : M PageSt A) (st st' : PageSt) (e : string) :
  m st = (Throw e, st') -> discard m st = Some (Throw e, st').
Proof. intros H. unfold discard. rewrite H. reflexivity. Qed.

(** [goto] on a detached page stops at the navigation command; the load
    promise it had already set up stays behind. *)
Lemma goto_detached (u : string) (o : GotoOptions) (p : Page) (w : World) :
  _attached p = false ->
  goto browser u o (p, w)
  = (Throw "Debugger not attached", (p, snd (new_load_promise w))).
Proof.
  intros H. unfold goto, bind, this, in_world. simpl.
  destruct (new_load_promise w) as [[lp|e] w1] eqn:Hn; simpl.
  - rewrite _sendCommand_detached by exact H. reflexivity.
  - unfold new_load_promise, setTimeout, bind, fresh_handle, modify, ret in Hn.
    simpl in Hn. discriminate.
Qed.

Lemma new_load_promise_calls (w : World) : calls (snd (new_load_promise w)) = calls w.
Proof. reflexivity. Qed.

Lemma close_spec (p : Page) (w : World) :
  close browser (p, w) = (Ok tt, (closed_page p, closed_world browser p w)).
Proof.
  unfold close, closed_page, closed_world, once_done, during, bind, this.
  destruct p as [tab att]. cbn [fst snd tabId _attached].
  unfold try_catch, in_world, chrome_debugger_detach, chrome_tabs_remove, api,
    set_attached, modify, ret, bind.
  destruct att; cbn [fst snd tabId _attached].
  - destruct (debugger_detach browser _) as [[]|?]; cbn [fst snd tabId _attached];
      destruct (tabs_remove browser _) as [[]|?]; reflexivity.
  - destruct (tabs_remove browser _) as [[]|?]; reflexivity.
Qed.

End GuardFacts.

(** C6: on a session with [_attached = false], every command-sending
    operation ([evaluate] and the helpers built on it, [goto],
    [waitForSelector]) throws the not-attached error at once and the
    browser receives no call; after [close()] the session is in that state,
    so a following [evaluate] fails in this way. *)
Theorem C6_detached_session_sends_nothing
    (browser : Browser) (fuel : nat) (op : Op) (p : Page) (w : World) :
  _attached p = false ->
  sends_command op = true ->
  (exists w',
     run_op browser (S fuel) op (p, w)
     = Some (Throw "Debugger not attached", (p, w'))
     /\ calls w' = calls w)
  /\ (forall (q : Page) (expression : string),
        let closed := snd (close browser (q, w)) in
        evaluate browser expression closed
        = (Throw "Debugger not attached", closed)).
Proof.
  intros Hd Hop. split.
  - destruct op; simpl in Hop; try discriminate; simpl run_op;
      try (exists w; split; [|reflexivity]; apply discard_throw;
           unfold getText, getTextAll, getAttribute, exists_, click, type,
             content, url, bind;
           rewrite evaluate_detached by exact Hd; reflexivity).
    + exists (snd (new_load_promise w)). split; [|reflexivity].
      apply discard_throw. apply goto_detached. exact Hd.
    + exists w. split; [|reflexivity].
      unfold waitForSelector. cbn [waitForSelector_loop snd].
      rewrite Z.sub_diag, Hop.
      rewrite evaluate_detached by exact Hd. reflexivity.
  - intros q expression closed. subst closed.
    rewrite close_spec. apply evaluate_detached. reflexivity.
Qed.

(** A page that was never attached, asked to evaluate. *)
Lemma C6_detached_session_witness :
  exists w',
    run_op Sample.steady 1 (OpEvaluate "1 + 1") (new_Page 7, Sample.empty_world)
    = Some (Throw "Debugger not attached", (new_Page 7, w'))
    /\ calls w' = [].
Proof.
  exact (proj1 (C6_detached_session_sends_nothing Sample.steady 0
                  (OpEvaluate "1 + 1") (new_Page 7) Sample.empty_world
                  eq_refl eq_refl)).
Defined.

(** ** Teardown *)

(** C4: [close()] never raises, whatever state the page is in and whatever
    the browser answers to the detach and to the removal of the tab: it
    returns normally and leaves [_attached = false], on a first call, on a
    second call, and on a page whose attach was attempted (successfully or
    not) or never attempted; on an attached page the detach is requested
    first and the removal of the tab second. *)
Theorem C4_close_never_raises (browser : Browser) (p : Page) (w : World) :
  let first := close browser (p, w) in
  let second := close browser (snd first) in
  (fst first = Ok tt /\ _attached (fst (snd first)) = false)
  /\ (fst second = Ok tt /\ _attached (fst (snd second)) = false)
  /\ (forall tab : nat,
        let constructed := (new_Page tab, w) in
        let attempted := snd (_attach browser constructed) in
        fst (close browser constructed) = Ok tt
        /\ fst (close browser attempted) = Ok tt
        /\ _attached (fst (snd (close browser attempted))) = false)
  /\ (_attached p = true ->
      calls (snd (snd first))
      = TabsRemove (tabId p) :: DebuggerDetach (tabId p) :: calls w).
Proof.
  cbv zeta. rewrite !close_spec. cbn [fst snd]. rewrite close_spec.
  split; [split; reflexivity|]. split; [split; reflexivity|]. split.
  - intros t. rewrite close_spec.
    destruct (_attach browser (new_Page t, w)) as [r [q w']]. cbn [snd].
    rewrite close_spec. repeat split.
  - intros Ha. unfold closed_world. rewrite Ha. reflexivity.
Qed.

(** An attached page, closed while the browser rejects nothing. *)
Lemma C4_close_never_raises_witness :
  calls (snd (snd (close Sample.steady
                     ({| tabId := 7; _attached := true |}, Sample.empty_world))))
  = [TabsRemove 7; DebuggerDetach 7].
Proof.
  exact (proj2 (proj2 (proj2
           (C4_close_never_raises Sample.steady {| tabId := 7; _attached := true |}
              Sample.empty_world))) eq_refl).
Defined.

(** C10: [close()] always asks for the removal of its tab: the request is
    the last call it makes on every page, attached or not, also when the
    page was never attached and on a repeated close; only the detach is
    conditional on [_attached]. *)
Theorem C10_close_always_requests_tab_removal
    (browser : Browser) (p : Page) (w : World) :
  let once := snd (close browser (p, w)) in
  let twice := snd (close browser once) in
  calls (snd once)
  = TabsRemove (tabId p)
    :: (if _attached p then [DebuggerDetach (tabId p)] else []) ++ calls w
  /\ calls (snd twice) = TabsRemove (tabId p) :: calls (snd once)
  /\ (forall tab : nat,
        calls (snd (snd (close browser (new_Page tab, w))))
        = TabsRemove tab :: calls w).
Proof.
  cbv zeta. rewrite !close_spec. cbn [fst snd]. rewrite close_spec.
  split; [|split].
  - unfold closed_world. destruct (_attached p); reflexivity.
  - reflexivity.
  - intros t. rewrite close_spec. reflexivity.
Qed.

(** ** The navigation wait *)

Section WaitFacts.

Variables (tab : nat) (timeout : Z).

Lemma new_load_promise_returns (w : World) :
  new_load_promise w
  = (Ok {| listener := S (next_handle w); timeoutId := next_handle w;
           settled := Pending |},
     addListener (S (next_handle w))
       (snd (fresh_handle (armTimer (next_handle w) (snd (fresh_handle w)))))).
Proof. reflexivity. Qed.

Lemma wait_inv_start (w : World) (p0 : LoadPromise) (w0 : World) :
  new_load_promise w = (Ok p0, w0) ->
  wait_inv timeout (listener p0) (timeoutId p0) (listeners w) (p0, w0).
Proof.
  rewrite new_load_promise_returns. intros [= <- <-].
  unfold wait_inv. cbn. split; [reflexivity|]. split; [reflexivity|]. left.
  split; [reflexivity|]. split; [set_solver|]. split; set_solver.
Qed.

Lemma deliver_settled (st : LoadPromise * World) (o : Occurrence) :
  listener (fst st) ∉ listeners (snd st) ->
  timeoutId (fst st) ∉ timers (snd st) ->
  deliver tab timeout st o = st.
Proof.
  destruct st as [p w]. cbn [fst snd]. intros Hl Ht.
  destruct o as [source method|id]; cbn [deliver].
  - destruct (decide (listener p ∈ listeners w)); [contradiction|reflexivity].
  - destruct (decide (id = timeoutId p ∧ id ∈ timers w)) as [[-> Hin]|_];
      [contradiction|reflexivity].
Qed.

Lemma wait_inv_deliver (l t : nat) (registry : gset nat)
    (st : LoadPromise * World) (o : Occurrence) :
  wait_inv timeout l t registry st ->
  wait_inv timeout l t registry (deliver tab timeout st o).
Proof.
  intros (Hl & Ht & [(Hp & Hin & Htin & Hreg)|(Hs & Hnl & Hnt & Hreg)]).
  - destruct st as [p w]. cbn [fst snd] in *.
    destruct o as [source method|id]; cbn [deliver].
    + destruct (decide (listener p ∈ listeners w)) as [_|Hn]; [|congruence].
      unfold on_event.
      destruct (negb (source =? tab)%nat);
        [unfold wait_inv; cbn [fst snd]; split; [|split]; auto; left; auto|].
      destruct (String.eqb method "Page.loadEventFired"
                || String.eqb method "Page.domContentEventFired");
        [|unfold wait_inv; cbn [fst snd]; split; [|split]; auto; left; auto].
      unfold wait_inv, resolve. rewrite Hp. cbn. rewrite Hl, Ht.
      split; [reflexivity|]. split; [reflexivity|]. right.
      split; [left; reflexivity|]. split; [set_solver|]. split; set_solver.
    + destruct (decide (id = timeoutId p ∧ id ∈ timers w)) as [[-> _]|_];
        [|unfold wait_inv; cbn [fst snd]; split; [|split]; auto; left; auto].
      unfold wait_inv, on_timeout, reject. rewrite Hp. cbn. rewrite Hl, Ht.
      split; [reflexivity|]. split; [reflexivity|]. right.
      split; [right; reflexivity|]. split; [set_solver|]. split; set_solver.
  - rewrite deliver_settled; [|congruence|congruence].
    unfold wait_inv. split; [|split]; auto.
Qed.

Lemma wait_inv_deliver_all (l t : nat) (registry : gset nat)
    (occs : list Occurrence) (st : LoadPromise * World) :
  wait_inv timeout l t registry st ->
  wait_inv timeout l t registry (deliver_all tab timeout occs st).
Proof.
  revert st. induction occs as [|o occs IH]; intros st H; [exact H|].
  cbn [deliver_all fold_left]. apply IH. apply wait_inv_deliver. exact H.
Qed.

Lemma deliver_all_settled (occs : list Occurrence) (st : LoadPromise * World) :
  listener (fst st) ∉ listeners (snd st) ->
  timeoutId (fst st) ∉ timers (snd st) ->
  deliver_all tab timeout occs st = st.
Proof.
  intros Hl Ht. induction occs as [|o occs IH]; [reflexivity|].
  cbn [deliver_all fold_left]. rewrite deliver_settled by assumption. exact IH.
Qed.

Lemma deliver_all_snoc (occs : list Occurrence) (o : Occurrence)
    (st : LoadPromise * World) :
  deliver_all tab timeout (occs ++ [o]) st
  = deliver tab timeout (deliver_all tab timeout occs st) o.
Proof. unfold deliver_all. rewrite fold_left_app. reflexivity. Qed.

(** When its timer expires, a pending wait is rejected. *)
Lemma wait_inv_deadline (l t : nat) (registry : gset nat) (st : LoadPromise * World) :
  wait_inv timeout l t registry st ->
  settled (fst (deliver tab timeout st (TimerExpires t))) <> Pending.
Proof.
  intros (Hl & Ht & [(Hp & Hin & Htin & Hreg)|(Hs & Hnl & Hnt & Hreg)]).
  - destruct st as [p w]. cbn [fst snd] in *. cbn [deliver].
    destruct (decide (t = timeoutId p ∧ t ∈ timers w)) as [_|Hn].
    + unfold on_timeout, reject. rewrite Hp. cbn. discriminate.
    + exfalso. apply Hn. split; [congruence|assumption].
  - rewrite deliver_settled; [|congruence|congruence].
    destruct Hs as [Hs|Hs]; rewrite Hs; discriminate.
Qed.

End WaitFacts.

(** The wait does not depend on anything in the world but the registry
    and the timers. *)
Lemma wait_inv_same_registry (timeout : Z) (l t : nat) (registry : gset nat)
    (p : LoadPromise) (w w' : World) :
  listeners w' = listeners w -> timers w' = timers w ->
  wait_inv timeout l t registry (p, w) -> wait_inv timeout l t registry (p, w').
Proof.
  intros Hl Ht. unfold wait_inv. cbn [fst snd]. rewrite Hl, Ht. exact id.
Qed.

(** In [goto], once [Page.navigate] has been accepted, the wait is
    awaited to its end: whether the call then returns or throws the
    navigation timeout, its listener is off the registry. *)
Lemma goto_returns_with_listener_removed (browser : Browser) (u : string)
    (o : GotoOptions) (p : Page) (w : World) (reply : Reply) :
  _attached p = true ->
  debugger_sendCommand browser
    (during (DebuggerSendCommand (tabId p) "Page.navigate" (NavigateParams u))
       (snd (new_load_promise w))) = Ok reply ->
  listeners (snd (snd (goto browser u o (p, w))))
  = (listeners w ∖ {[S (next_handle w)]}).
Proof.
  intros Ha Hnav. unfold goto. cbv zeta.
  erewrite bind_ok; [|reflexivity].
  erewrite bind_ok; [|unfold in_world; cbn [fst snd];
                      rewrite new_load_promise_returns; reflexivity].
  cbn [fst snd].
  set (lp := {| listener := S (next_handle w); timeoutId := next_handle w;
                settled := Pending |}).
  set (w1 := addListener _ _).
  change (snd (new_load_promise w)) with w1 in Hnav.
  erewrite bind_ok;
    [|rewrite (_sendCommand_attached browser _ _ p w1 Ha); cbv zeta;
      rewrite Hnav; reflexivity].
  set (w2 := once_done browser _ w1).
  pose (timeout_ := default 30000 (timeout o)).
  assert (Hinv : wait_inv timeout_ (listener lp) (timeoutId lp) (listeners w) (lp, w2)).
  { apply (wait_inv_same_registry _ _ _ _ lp w1 w2); [reflexivity|reflexivity|].
    apply (wait_inv_start timeout_ w lp w1). apply new_load_promise_returns. }
  unfold bind, in_world. cbn [fst snd]. fold timeout_. unfold schedule.
  set (occs := map _ (events browser w2)).
  pose proof (wait_inv_deliver_all (tabId p) timeout_ _ _ _ occs _ Hinv) as Hmid.
  pose proof (wait_inv_deadline (tabId p) timeout_ _ _ _ _ Hmid) as Hend.
  pose proof (wait_inv_deliver (tabId p) timeout_ _ _ _ _
                (TimerExpires (timeoutId lp)) Hmid) as Hfin.
  rewrite <- deliver_all_snoc in Hend, Hfin.
  destruct (deliver_all (tabId p) timeout_ (occs ++ [TimerExpires (timeoutId lp)])
              (lp, w2)) as [p' w3].
  cbn [fst snd] in Hend, Hfin.
  destruct Hfin as (_ & _ & [(Hp & _)|(_ & _ & _ & Hreg)]); [contradiction|].
  destruct (settled p'); cbn [fst snd]; exact Hreg.
Qed.

(** When the navigation command itself throws, [goto] returns before the
    wait has settled: its listener is still registered, until the event
    or the deadline removes it. *)
Lemma goto_detached_leaves_listener (browser : Browser) (u : string)
    (o : GotoOptions) (p : Page) (w : World) :
  _attached p = false ->
  S (next_handle w) ∈ listeners (snd (snd (goto browser u o (p, w)))).
Proof.
  intros Ha. rewrite (goto_detached browser u o p w Ha). cbn. set_solver.
Qed.

(** C5: the wait that [goto] sets up has exactly one outcome, and its
    listener is registered exactly as long as the wait is pending.  After
    any sequence of debugger events and timer expiries: the promise is
    pending, fulfilled (by the awaited event) or rejected with the
    navigation-timeout error; it is settled if and only if the listener
    is off [chrome.debugger.onEvent] (and the timer disarmed), the
    registry then being what it was before the wait; once settled, no
    later occurrence changes the outcome; and the expiry of the deadline
    settles a wait that is still pending. *)
Theorem C5_load_wait_one_outcome_listener_removed
    (tab : nat) (timeout : Z) (w : World) (p0 : LoadPromise) (w0 : World)
    (occs later : list Occurrence) :
  new_load_promise w = (Ok p0, w0) ->
  let st := deliver_all tab timeout occs (p0, w0) in
  (settled (fst st) = Pending
   \/ settled (fst st) = Fulfilled
   \/ settled (fst st)
      = Rejected ("Navigation timeout after " +:+ Js.string_of_Z timeout +:+ "ms"))
  /\ (settled (fst st) <> Pending <-> listener p0 ∉ listeners (snd st))
  /\ (settled (fst st) <> Pending <-> timeoutId p0 ∉ timers (snd st))
  /\ (settled (fst st) <> Pending ->
      listeners (snd st) = (listeners w ∖ {[listener p0]})
      /\ (listeners w = ∅ -> listeners (snd st) = ∅))
  /\ (settled (fst st) <> Pending -> deliver_all tab timeout later st = st)
  /\ settled (fst (deliver_all tab timeout (occs ++ [TimerExpires (timeoutId p0)])
                     (p0, w0))) <> Pending.
Proof.
  intros Hnew st.
  pose proof (wait_inv_deliver_all tab timeout _ _ _ occs _
                (wait_inv_start timeout w p0 w0 Hnew)) as Hinv.
  fold st in Hinv.
  split; [|split; [|split; [|split; [|split]]]].
  - destruct Hinv as (_ & _ & [(Hp & _)|([Hs|Hs] & _)]); auto.
  - destruct Hinv as (_ & _ & [(Hp & Hin & _)|(Hs & Hnl & _)]).
    + split; [congruence|contradiction].
    + split; [auto|]. intros _. destruct Hs as [Hs|Hs]; rewrite Hs; discriminate.
  - destruct Hinv as (_ & _ & [(Hp & _ & Htin & _)|(Hs & _ & Hnt & _)]).
    + split; [congruence|contradiction].
    + split; [auto|]. intros _. destruct Hs as [Hs|Hs]; rewrite Hs; discriminate.
  - intros Hne. destruct Hinv as (_ & _ & [(Hp & _)|(_ & _ & _ & Hreg)]);
      [congruence|]. split; [exact Hreg|]. intros He. rewrite Hreg, He. set_solver.
  - intros Hne. destruct Hinv as (Hl & Ht & [(Hp & _)|(_ & Hnl & Hnt & _)]);
      [congruence|]. apply deliver_all_settled; congruence.
  - rewrite deliver_all_snoc. fold st.
    eapply wait_inv_deadline. exact Hinv.
Qed.

(** A wait started in an empty world, with the load event of another tab,
    the DOM-ready event of its own tab and then the expiry of its timer. *)
Lemma C5_load_wait_witness :
  let p0 := {| listener := 1; timeoutId := 0; settled := Pending |} in
  let st := deliver_all 7 30000
              [DebuggerEvent 8 "Page.loadEventFired";
               DebuggerEvent 7 "Page.domContentEventFired";
               TimerExpires 0]
              (p0, snd (new_load_promise Sample.empty_world)) in
  settled (fst st) <> Pending <-> listener p0 ∉ listeners (snd st).
Proof.
  exact (proj1 (proj2 (C5_load_wait_one_outcome_listener_removed 7 30000
                  Sample.empty_world _ _ _ [] eq_refl))).
Defined.

(** The listener resolves on either notification of its own tab, and on
    nothing else. *)
Lemma on_event_resolves (tab source : nat) (method : string)
    (p : LoadPromise) (w : World) :
  settled p = Pending ->
  settled (fst (on_event tab source method (p, w))) = Fulfilled
  <-> source = tab
      /\ (method = "Page.loadEventFired" \/ method = "Page.domContentEventFired").
Proof.
  intros Hp. unfold on_event.
  destruct (Nat.eqb_spec source tab) as [->|Hne]; cbn [negb].
  - destruct (String.eqb_spec method "Page.loadEventFired") as [->|H1]; cbn [orb].
    + unfold resolve. rewrite Hp. cbn. tauto.
    + destruct (String.eqb_spec method "Page.domContentEventFired") as [->|H2].
      * unfold resolve. rewrite Hp. cbn. tauto.
      * cbn [fst]. rewrite Hp. split; [discriminate|]. intros [_ [?|?]]; contradiction.
  - cbn [fst]. rewrite Hp. split; [discriminate|]. intros [? _]; contradiction.
Qed.

(** [waitUntil] is read from the options and then never used. *)
Lemma goto_ignores_waitUntil (browser : Browser) (u : string) (t : option Z)
    (wu wu' : option string) (st : PageSt) :
  goto browser u {| timeout := t; waitUntil := wu |} st
  = goto browser u {| timeout := t; waitUntil := wu' |} st.
Proof. reflexivity. Qed.

(** C3, at the failing input: [goto] is called with [waitUntil: "load"]
    on an attached page of a browser that emits the DOM-ready
    notification and no load event.  The call returns normally: the wait
    was resolved by [Page.domContentEventFired], an event other than the
    selected one; with no event at all the same call ends in the
    navigation timeout. *)
Theorem C3_goto_load_resolves_on_dom_ready :
  let page := {| tabId := 7; _attached := true |} in
  let options := {| timeout := None; waitUntil := Some "load" |} in
  events Sample.steady Sample.empty_world = [(7%nat, "Page.domContentEventFired")]
  /\ fst (goto Sample.steady "https://example.test" options (page, Sample.empty_world))
     = Ok tt
  /\ fst (goto Sample.slow "https://example.test" options (page, Sample.empty_world))
     = Throw "Navigation timeout after 30000ms".
Proof. cbv zeta. split; [reflexivity|]. split; vm_compute; reflexivity. Qed.

(** ** The selector poll *)

Section PollFacts.

Variable browser : Browser.

Lemma evaluate_attached (expression : string) (p : Page) (w : World) :
  _attached p = true ->
  let c := DebuggerSendCommand (tabId p) "Runtime.evaluate"
             (EvaluateParams expression true true) in
  evaluate browser expression (p, w)
  = (match debugger_sendCommand browser (during c w) with
     | Ok reply => unwrap reply
     | Throw err => Throw err
     end, (p, once_done browser c w)).
Proof.
  intros H c. unfold evaluate, bind.
  rewrite (_sendCommand_attached browser _ _ p w H). fold c.
  destruct (debugger_sendCommand browser (during c w)) as [reply|err]; [|reflexivity].
  unfold unwrap. destruct (exceptionDetails reply); reflexivity.
Qed.

Lemma sleep_spec (ms : Z) (p : Page) (w : World) :
  sleep browser ms (p, w)
  = (Ok tt, (p, advance (Z.max 0 ms + Z.of_nat (oversleep browser w)) w)).
Proof. reflexivity. Qed.

(** The loop started [d] milliseconds after [startTime], with the values
    of the claim: deadline 1000, interval 100. *)
Lemma poll_loop_count (selector : string) (p : Page) (startTime : Z) :
  _attached p = true ->
  never_appears browser ->
  forall (fuel : nat) (w : World),
    0 <= now w - startTime ->
    1000 - (now w - startTime) <= 100 * (Z.of_nat fuel - 1) ->
    (1 <= fuel)%nat ->
    exists (w' : World) (n : nat),
      waitForSelector_loop browser fuel selector startTime 1000 100 (p, w)
      = Some (Throw ("Timeout waiting for selector: " +:+ selector), (p, w'))
      /\ evaluations w' = (evaluations w + n)%nat
      /\ (now w - startTime < 1000 ->
          (1 <= n)%nat /\ 100 * (Z.of_nat n - 1) < 1000 - (now w - startTime))
      /\ (1000 <= now w - startTime -> n = 0%nat)
      /\ (overrun_at_most browser 24 ->
          1000 - (now w - startTime) <= 124 * Z.of_nat n).
Proof.
  intros Ha Hnever. induction fuel as [|fuel IH]; intros w Hd Hfuel Hpos; [lia|].
  cbn [waitForSelector_loop snd].
  destruct (Z.ltb_spec (now w - startTime) 1000) as [Hlt|Hge].
  - rewrite (evaluate_attached _ p w Ha). cbv zeta.
    set (c := DebuggerSendCommand (tabId p) "Runtime.evaluate" _).
    destruct (Hnever (during c w)) as (reply & -> & Hex & Hfalsy).
    unfold unwrap. rewrite Hex, Hfalsy, sleep_spec.
    set (w2 := advance _ (once_done browser c w)).
    assert (Hnow : now w2 = now w + Z.of_nat (elapsed browser (during c w)) + 100
                           + Z.of_nat (oversleep browser (once_done browser c w)))
      by (subst w2; unfold once_done, during; cbn; lia).
    assert (Hev : evaluations w2 = S (evaluations w)) by reflexivity.
    destruct (IH w2) as (w' & n & Hrun & Hcount & Hlow & Hzero & Hslack); [lia|lia|lia|].
    exists w', (S n). split; [exact Hrun|]. split; [lia|].
    split; [|split].
    + intros _. split; [lia|].
      destruct (Z.lt_ge_cases (now w2 - startTime) 1000) as [H2|H2].
      * destruct (Hlow H2). lia.
      * rewrite (Hzero H2). lia.
    + lia.
    + intros Hover. specialize (Hslack Hover).
      pose proof (Hover (during c w) (once_done browser c w)). lia.
  - exists w, 0%nat. split; [reflexivity|]. split; [lia|].
    split; [lia|]. split; [reflexivity|]. intros _. lia.
Qed.

End PollFacts.

(** C7, as the claim states it, fails: against a browser that takes one
    second to answer each command, the poll with deadline 1000 and
    interval 100 makes a single existence check before it throws. *)
Lemma C7_single_check_counterexample :
  exists st',
    waitForSelector Sample.slow 11 "#missing"
      {| wait_timeout := Some 1000; interval := Some 100 |}
      ({| tabId := 7; _attached := true |}, Sample.empty_world)
    = Some (Throw "Timeout waiting for selector: #missing", st')
    /\ evaluations (snd st') = 1%nat
    /\ ~ (9 <= evaluations (snd st') - evaluations Sample.empty_world)%nat.
Proof.
  eexists. split; [vm_compute; reflexivity|].
  split; [reflexivity|]. vm_compute. lia.
Qed.

(** C7 (amended): [waitForSelector(s, {timeout: 1000, interval: 100})] on
    an attached page, for a selector that never appears, throws the
    timeout error that names the selector after at least 1 and at most 10
    (hence at most 11) existence checks; it makes at least 9 of them when
    a check and the sleep after it never overrun the interval by more
    than 24 ms. *)
Theorem C7_poll_checks_bounded
    (browser : Browser) (fuel : nat) (selector : string) (p : Page) (w : World) :
  _attached p = true ->
  never_appears browser ->
  (11 <= fuel)%nat ->
  exists st',
    waitForSelector browser fuel selector
      {| wait_timeout := Some 1000; interval := Some 100 |} (p, w)
    = Some (Throw ("Timeout waiting for selector: " +:+ selector), st')
    /\ (evaluations w + 1 <= evaluations (snd st') <= evaluations w + 10)%nat
    /\ (overrun_at_most browser 24 ->
        (evaluations w + 9 <= evaluations (snd st'))%nat).
Proof.
  intros Ha Hnever Hfuel. unfold waitForSelector. cbn [default wait_timeout interval snd].
  destruct (poll_loop_count browser selector p (now w) Ha Hnever fuel w)
    as (w' & n & Hrun & Hcount & Hlow & _ & Hslack); [lia|lia|lia|].
  exists (p, w'). split; [exact Hrun|]. cbn [snd].
  destruct Hlow as [H1 H2]; [lia|]. split; [lia|].
  intros Hover. specialize (Hslack Hover). lia.
Qed.

(** Against the browser that answers at once: ten checks. *)
Lemma C7_poll_checks_witness :
  exists st',
    waitForSelector Sample.steady 11 "#missing"
      {| wait_timeout := Some 1000; interval := Some 100 |}
      ({| tabId := 7; _attached := true |}, Sample.empty_world)
    = Some (Throw "Timeout waiting for selector: #missing", st')
    /\ (evaluations Sample.empty_world + 1 <= evaluations (snd st')
        <= evaluations Sample.empty_world + 10)%nat
    /\ (overrun_at_most Sample.steady 24 ->
        (evaluations Sample.empty_world + 9 <= evaluations (snd st'))%nat).
Proof.
  destruct (C7_poll_checks_bounded Sample.steady 11 "#missing"
              {| tabId := 7; _attached := true |} Sample.empty_world)
    as (st' & Hrun & Hbounds & Hnine).
  - reflexivity.
  - intros w. exists (Sample.reply (VBool false)). repeat split.
  - lia.
  - exists st'. split; [exact Hrun|]. split; [exact Hbounds|]. intros _.
    apply Hnine. intros w1 w2. cbn. lia.
Defined.

(** ** What the operations leave in the call log *)

Lemma only_commands_refl (w w' : World) : calls w' = calls w -> only_commands w w'.
Proof. intros H. exists []. split; [exact H|constructor]. Qed.

Lemma only_commands_trans (w1 w2 w3 : World) :
  only_commands w1 w2 -> only_commands w2 w3 -> only_commands w1 w3.
Proof.
  intros (a1 & H1 & F1) (a2 & H2 & F2). exists (a2 ++ a1).
  split; [rewrite H2, H1, app_assoc; reflexivity|].
  apply Forall_app; auto.
Qed.

Create HintDb quiet.

Section QuietFacts.

Variable browser : Browser.

Lemma quiet_ret {A} (a : A) : quiet (ret a).
Proof. intros p w. cbn. auto using only_commands_refl. Qed.

Lemma quiet_throw {A} (e : string) : quiet (@throw PageSt A e).
Proof. intros p w. cbn. auto using only_commands_refl. Qed.

Lemma quiet_this : quiet this.
Proof. intros p w. cbn. auto using only_commands_refl. Qed.

Lemma quiet_bind {A B} (m : M PageSt A) (k : A -> M PageSt B) :
  quiet m -> (forall a, quiet (k a)) -> quiet (bind m k).
Proof.
  intros Hm Hk p w. unfold bind. specialize (Hm p w).
  destruct (m (p, w)) as [[a|e] [p1 w1]]; cbn [fst snd] in *.
  - destruct Hm as (-> & Hc & Hd). specialize (Hk a p w1).
    destruct (k a (p, w1)) as [r [p2 w2]]; cbn [fst snd] in *.
    destruct Hk as (-> & Hc2 & Hd2). split; [reflexivity|].
    split; [eapply only_commands_trans; eassumption|].
    intros Hdet. rewrite Hd2, Hd by exact Hdet. reflexivity.
  - exact Hm.
Qed.

Lemma quiet_in_world {A} (f : M World A) : silent f -> quiet (in_world f).
Proof.
  intros Hf p w. unfold in_world. specialize (Hf w). cbn [fst snd].
  destruct (f w) as [r w1]. cbn [fst snd] in *.
  auto using only_commands_refl.
Qed.

Lemma quiet__sendCommand (method : string) (params : Params) :
  quiet (_sendCommand browser method params).
Proof.
  intros p w. destruct (_attached p) eqn:Ha.
  - rewrite (_sendCommand_attached browser _ _ p w Ha). cbn [fst snd].
    split; [reflexivity|]. split; [|discriminate].
    eexists [_]. split; [reflexivity|]. repeat constructor.
  - rewrite (_sendCommand_detached browser _ _ p w Ha). cbn [fst snd].
    auto using only_commands_refl.
Qed.

Lemma quiet_evaluate (expression : string) : quiet (evaluate browser expression).
Proof.
  unfold evaluate. apply quiet_bind; [apply quiet__sendCommand|].
  intros reply. destruct (exceptionDetails reply); [apply quiet_throw|apply quiet_ret].
Qed.

Lemma quiet_sleep (ms : Z) : quiet (sleep browser ms).
Proof. unfold sleep. apply quiet_in_world. intros w. reflexivity. Qed.

Lemma deliver_calls (tab : nat) (timeout : Z) (st : LoadPromise * World)
    (o : Occurrence) :
  calls (snd (deliver tab timeout st o)) = calls (snd st).
Proof.
  destruct st as [p w]. destruct o as [source method|id]; cbn [deliver].
  - destruct (decide _); [|reflexivity]. unfold on_event.
    destruct (negb _); [reflexivity|]. destruct (_ || _); reflexivity.
  - destruct (decide _); reflexivity.
Qed.

Lemma deliver_all_calls (tab : nat) (timeout : Z) (occs : list Occurrence)
    (st : LoadPromise * World) :
  calls (snd (deliver_all tab timeout occs st)) = calls (snd st).
Proof.
  revert st. induction occs as [|o occs IH]; intros st; [reflexivity|].
  cbn [deliver_all fold_left]. etransitivity; [apply IH|apply deliver_calls].
Qed.

Lemma quiet_goto (u : string) (options : GotoOptions) : quiet (goto browser u options).
Proof.
  unfold goto. cbv zeta.
  apply quiet_bind; [apply quiet_this|]. intros page.
  apply quiet_bind; [apply quiet_in_world; intros w; reflexivity|]. intros lp.
  apply quiet_bind; [apply quiet__sendCommand|]. intros _.
  apply quiet_bind; [|intros _; apply quiet_sleep].
  apply quiet_in_world. intros w.
  pose proof (deliver_all_calls (tabId page) (default 30000 (timeout options))
                (schedule browser lp w) (lp, w)) as H.
  destruct (deliver_all _ _ _ _) as [p' w']. cbn [snd] in *.
  destruct (settled p'); exact H.
Qed.

#[local] Hint Resolve quiet_ret quiet_throw quiet_this quiet_bind quiet_evaluate
  quiet_sleep quiet_goto quiet__sendCommand : quiet.

Lemma quiet_helpers (selector other : string) :
  quiet (getText browser selector) /\ quiet (getTextAll browser selector)
  /\ quiet (getAttribute browser selector other) /\ quiet (exists_ browser selector)
  /\ quiet (click browser selector) /\ quiet (type browser selector other)
  /\ quiet (content browser) /\ quiet (url browser).
Proof.
  unfold getText, getTextAll, getAttribute, exists_, click, type, content, url.
  repeat match goal with |- _ /\ _ => split end; auto with quiet.
Qed.

(** The poll is quiet too, whenever it returns. *)
Lemma waitForSelector_loop_quiet (selector : string) (startTime timeout interval : Z)
    (fuel : nat) (p : Page) (w : World) (r : outcome unit) (st' : PageSt) :
  waitForSelector_loop browser fuel selector startTime timeout interval (p, w)
  = Some (r, st') ->
  fst st' = p /\ only_commands w (snd st')
  /\ (_attached p = false -> calls (snd st') = calls w).
Proof.
  revert w. induction fuel as [|fuel IH]; intros w; [discriminate|].
  cbn [waitForSelector_loop snd].
  destruct (now w - startTime <? timeout).
  - pose proof (quiet_evaluate (Expr.waitForSelector selector) p w) as He.
    destruct (evaluate browser _ (p, w)) as [[found|e] [p1 w1]]; cbn [fst snd] in He.
    + destruct He as (-> & Hc & Hd). destruct (truthy found).
      * intros [= <- <-]. auto.
      * pose proof (quiet_sleep interval p w1) as Hs.
        destruct (sleep browser interval (p, w1)) as [r2 [p2 w2]]; cbn [fst snd] in Hs.
        destruct Hs as (-> & Hc2 & Hd2). intros Hrun.
        destruct (IH _ Hrun) as (Hp & Hc3 & Hd3).
        split; [exact Hp|]. split.
        -- eauto using only_commands_trans.
        -- intros Hdet. rewrite Hd3, Hd2, Hd by exact Hdet. reflexivity.
    + intros [= <- <-]. exact He.
  - intros [= <- <-]. cbn [fst snd]. auto using only_commands_refl.
Qed.

End QuietFacts.

(** ** The attached flag over the life of a session *)

Section LifeFacts.

Variable browser : Browser.

Lemma quiet_step {A} (m : M PageSt A) (op : Op) (s : PageSt) :
  quiet m -> step_ok op s (snd (m s)).
Proof.
  intros Hq. destruct s as [p w]. destruct (Hq p w) as (Hp & _ & Hd).
  unfold step_ok, flag, commands. rewrite Hp. cbn [fst snd]. split.
  - intros Ha. rewrite (Hd Ha). auto.
  - congruence.
Qed.

Lemma discard_snd {A} (m : M PageSt A) (s : PageSt) (r : outcome unit) (s' : PageSt) :
  discard m s = Some (r, s') -> s' = snd (m s).
Proof. unfold discard. destruct (m s) as [[a|e] s1]; intros [= _ <-]; reflexivity. Qed.

Lemma run_op_step (fuel : nat) (op : Op) (s : PageSt) (r : outcome unit) (s' : PageSt) :
  run_op browser fuel op s = Some (r, s') -> step_ok op s s'.
Proof.
  pose proof (quiet_helpers browser) as Hh.
  destruct op; cbn [run_op]; intros Hrun;
    try (apply discard_snd in Hrun; subst s'; apply quiet_step;
         first [ apply quiet_goto | apply quiet_evaluate | apply quiet_sleep
               | apply (Hh selector ""%string) | apply (Hh selector attribute)
               | apply (Hh selector text) | apply (Hh ""%string ""%string) ]).
  - (* waitForSelector *)
    destruct s as [p w]. unfold waitForSelector in Hrun.
    destruct (waitForSelector_loop_quiet browser _ _ _ _ _ _ _ _ _ Hrun) as (Hp & _ & Hd).
    unfold step_ok, flag, commands. rewrite Hp. cbn [fst snd]. split.
    + intros Ha. rewrite (Hd Ha). auto.
    + congruence.
  - (* close *)
    apply discard_snd in Hrun. subst s'. destruct s as [p w].
    rewrite close_spec. unfold step_ok, flag, commands. cbn [fst snd closed_page _attached].
    split; [|reflexivity]. intros Ha. split; [reflexivity|].
    unfold closed_world. rewrite Ha. reflexivity.
Qed.

Lemma quiet_enable_domains : quiet (enable_domains browser).
Proof.
  unfold enable_domains.
  repeat (apply quiet_bind; [apply quiet__sendCommand|intros _]). apply quiet_ret.
Qed.

Lemma _attach_new_page_unfold (tab : nat) (w : World) :
  let c := DebuggerAttach tab "1.3" in
  _attach browser (new_Page tab, w)
  = match debugger_attach browser (during c w) with
    | Ok _ =>
        enable_domains browser
          ({| tabId := tab; _attached := true |}, once_done browser c w)
    | Throw e => (Throw e, (new_Page tab, once_done browser c w))
    end.
Proof.
  cbv zeta. unfold _attach, enable_domains, bind, this, in_world,
    chrome_debugger_attach, api, set_attached, modify, once_done, during.
  cbn [fst snd new_Page _attached tabId].
  destruct (debugger_attach browser _) as [[]|e]; reflexivity.
Qed.

Lemma _attach_new_page (tab : nat) (w : World) :
  let s1 := snd (_attach browser (new_Page tab, w)) in
  let c := DebuggerAttach tab "1.3" in
  tabId (fst s1) = tab
  /\ (flag s1 = true <-> debugger_attach browser (during c w) = Ok tt)
  /\ (flag s1 = false -> commands (snd s1) = commands w).
Proof.
  cbv zeta. rewrite _attach_new_page_unfold. cbv zeta.
  destruct (debugger_attach browser _) as [[]|e].
  - destruct (quiet_enable_domains {| tabId := tab; _attached := true |}
                (once_done browser (DebuggerAttach tab "1.3") w)) as (Hp & _ & _).
    unfold flag. rewrite Hp. cbn.
    split; [reflexivity|]. split; [tauto|discriminate].
  - cbn [fst snd]. unfold flag. cbn. split; [reflexivity|].
    split; [split; discriminate|reflexivity].
Qed.

(** Adjacent states of a run of operations are related by [step_ok]. *)
Lemma run_ops_adjacent (fuel : nat) (ops : list Op) (s : PageSt) (i : nat)
    (t t' : PageSt) :
  (s :: run_ops browser fuel ops s) !! i = Some t ->
  (s :: run_ops browser fuel ops s) !! S i = Some t' ->
  exists op, ops !! i = Some op /\ step_ok op t t'.
Proof.
  revert s i. induction ops as [|op ops IH]; intros s i Ht Ht'.
  - cbn in Ht'. discriminate.
  - cbn [run_ops] in Ht, Ht'.
    destruct (run_op browser fuel op s) as [[r s1]|] eqn:Hrun.
    + destruct i as [|i].
      * cbn in Ht, Ht'. injection Ht as <-. injection Ht' as <-.
        exists op. split; [reflexivity|]. eapply run_op_step. exact Hrun.
      * cbn [lookup list_lookup] in Ht, Ht'. apply (IH s1 i Ht Ht').
    + cbn in Ht'. discriminate.
Qed.

Lemma run_ops_flags_detached (fuel : nat) (ops : list Op) (s : PageSt) :
  flag s = false ->
  map flag (run_ops browser fuel ops s)
  = repeat false (length (run_ops browser fuel ops s)).
Proof.
  revert s. induction ops as [|op ops IH]; intros s Hs; [reflexivity|].
  cbn [run_ops]. destruct (run_op browser fuel op s) as [[r s1]|] eqn:Hrun; [|reflexivity].
  destruct (run_op_step _ _ _ _ _ Hrun) as [Hd _]. destruct (Hd Hs) as [Hs1 _].
  cbn. rewrite Hs1, (IH s1 Hs1). reflexivity.
Qed.

Lemma run_ops_flags_attached (fuel : nat) (ops : list Op) (s : PageSt) :
  flag s = true ->
  exists b c : nat,
    map flag (run_ops browser fuel ops s) = repeat true b ++ repeat false c.
Proof.
  revert s. induction ops as [|op ops IH]; intros s Hs; [exists 0%nat, 0%nat; reflexivity|].
  cbn [run_ops]. destruct (run_op browser fuel op s) as [[r s1]|] eqn:Hrun;
    [|exists 0%nat, 0%nat; reflexivity].
  cbn [map]. destruct (flag s1) eqn:Hs1.
  - destruct (IH s1 Hs1) as (b & c & ->). exists (S b), c. reflexivity.
  - rewrite (run_ops_flags_detached fuel ops s1 Hs1).
    exists 0%nat, (S (length (run_ops browser fuel ops s1))). reflexivity.
Qed.

End LifeFacts.

(** C8: over the life of a session (constructed, attached once by
    [createPage], then driven through any sequence of public operations,
    whatever the browser answers) the flag reads false, then true, then
    false: it rises at most once, only in the attach step and only when
    [chrome.debugger.attach] succeeded; it falls at most once, only in a
    [close]; it is never true again afterwards; and a step that begins
    and ends detached transmits no command. *)
Theorem C8_session_is_single_use
    (browser : Browser) (fuel : nat) (tab : nat) (ops : list Op) (w : World) :
  let states := life browser fuel tab ops w in
  (exists a b c : nat,
     map flag states = repeat false (S a) ++ repeat true b ++ repeat false c)
  /\ (forall (i : nat) (s s' : PageSt),
        states !! i = Some s ->
        states !! S i = Some s' ->
        (flag s = false -> flag s' = true ->
         i = 0%nat
         /\ debugger_attach browser (during (DebuggerAttach tab "1.3") w) = Ok tt)
        /\ (flag s = true -> flag s' = false -> ops !! (i - 1)%nat = Some OpClose)
        /\ (flag s = false -> flag s' = false ->
            commands (snd s') = commands (snd s))).
Proof.
  cbv zeta. unfold life.
  destruct (_attach_new_page browser tab w) as (Htab & Hrise & Hquiet).
  set (s1 := snd (_attach browser (new_Page tab, w))) in *.
  split.
  - cbn [map]. change (flag (new_Page tab, w)) with false.
    destruct (flag s1) eqn:Hs1.
    + destruct (run_ops_flags_attached browser fuel ops s1 Hs1) as (b & c & ->).
      exists 0%nat, (S b), c. reflexivity.
    + rewrite (run_ops_flags_detached browser fuel ops s1 Hs1).
      exists (S (length (run_ops browser fuel ops s1))), 0%nat, 0%nat.
      cbn [repeat app]. rewrite app_nil_r. reflexivity.
  - intros i s s' Hs Hs'. destruct i as [|i].
    + cbn in Hs, Hs'. injection Hs as <-. injection Hs' as <-.
      change (flag (new_Page tab, w)) with false.
      split; [|split].
      * intros _ H. split; [reflexivity|]. apply Hrise. exact H.
      * discriminate.
      * intros _ H. apply Hquiet. exact H.
    + cbn [lookup list_lookup] in Hs, Hs'.
      destruct (run_ops_adjacent browser fuel ops s1 i s s' Hs Hs')
        as (op & Hop & Hd & Hc).
      replace (S i - 1)%nat with i by lia.
      split; [|split].
      * intros Hf Ht. destruct (Hd Hf) as [Hf' _]. congruence.
      * intros Ht Hf. rewrite Hop, (Hc Ht Hf). reflexivity.
      * intros Hf _. apply Hd. exact Hf.
Qed.

(** A session that is attached, evaluates, is closed, and is then asked
    to evaluate and to close again. *)
Example life_flags_example :
  map flag (life Sample.steady 1 7
              [OpEvaluate "1"; OpClose; OpEvaluate "2"; OpClose]
              Sample.empty_world)
  = [false; true; true; false; false; false].
Proof. vm_compute. reflexivity. Qed.

(** The step after a [close]: an [evaluate] that transmits nothing. *)
Lemma C8_session_witness :
  let states := life Sample.steady 1 7 [OpClose; OpEvaluate "2"] Sample.empty_world in
  exists s s' : PageSt,
    states !! 2%nat = Some s /\ states !! 3%nat = Some s'
    /\ commands (snd s') = commands (snd s).
Proof.
  cbv zeta. eexists. eexists.
  split; [vm_compute; reflexivity|]. split; [vm_compute; reflexivity|].
  refine (proj2 (proj2 (proj2 (C8_session_is_single_use Sample.steady 1 7
            [OpClose; OpEvaluate "2"] Sample.empty_world) 2%nat _ _ _ _)) _ _);
    vm_compute; reflexivity.
Defined.

(** ** The scrapers' open/close discipline *)

Section ScraperFacts.

Variable browser : Browser.

(** [createPage] hands out attached pages only. *)
Lemma createPage_returns_attached (w : World) (page : Page) (w1 : World) :
  createPage browser w = (Ok page, w1) -> _attached page = true.
Proof.
  unfold createPage, bind at 1.
  destruct (chrome_tabs_create browser "about:blank" false w) as [[tab|e] w0];
    [|discriminate].
  rewrite _attach_new_page_unfold. cbv zeta.
  destruct (debugger_attach browser _) as [[]|e]; [|discriminate].
  pose proof (quiet_enable_domains browser {| tabId := tab; _attached := true |}
                (once_done browser (DebuggerAttach tab "1.3") w0)) as (Hp & _).
  destruct (enable_domains browser _) as [[[]|e] [q w2]]; cbn [fst snd] in Hp;
    intros [= <- <-]; subst q; reflexivity.
Qed.

Lemma on_page_quiet {A} (m : M PageSt A) (p : Page) (w : World) :
  quiet m ->
  exists (r : outcome A) (w' : World),
    on_page m (Some p, w) = (r, (Some p, w')) /\ only_commands w w'.
Proof.
  intros Hq. destruct (Hq p w) as (Hp & Hc & _). unfold on_page. cbn [fst snd].
  destruct (m (p, w)) as [r [p' w']]. cbn [fst snd] in *. subst p'. eauto.
Qed.

(** The steps after [createPage] keep [page] pointing at the same,
    unchanged object and only send commands. *)
Lemma scrape_steps_keep_page (site : Site) (ip : string) (page : Page) (w : World) :
  exists (r : outcome value) (w' : World),
    scrape_steps browser site ip (Some page, w) = (r, (Some page, w'))
    /\ only_commands w w'.
Proof.
  unfold scrape_steps. cbv zeta.
  destruct (on_page_quiet (goto browser (page_url site +:+ ip)
                             {| timeout := Some 30000; waitUntil := None |})
              page w (quiet_goto browser _ _)) as ([[]|e1] & wa & H1 & Hca);
    [rewrite (bind_ok _ _ _ _ _ H1)|rewrite (bind_throw _ _ _ _ _ H1); eauto].
  destruct (on_page_quiet (sleep browser (settle site)) page wa (quiet_sleep browser _))
    as ([[]|e2] & wb & H2 & Hcb);
    [rewrite (bind_ok _ _ _ _ _ H2)
    |rewrite (bind_throw _ _ _ _ _ H2); eauto using only_commands_trans].
  destruct (on_page_quiet (evaluate browser (extraction site)) page wb
              (quiet_evaluate browser _)) as ([data|e3] & wc & H3 & Hcc);
    [rewrite (bind_ok _ _ _ _ _ H3)
    |rewrite (bind_throw _ _ _ _ _ H3)]; eauto 6 using only_commands_trans.
Qed.

(** Once [createPage] has returned a page, the scraper returns normally
    and the last things it does are the detach and the removal of that
    page's tab; everything between [createPage] and them is a command. *)
Lemma scrape_closes_created_page (site : Site) (ip : string) (w : World)
    (page : Page) (w1 : World) :
  createPage browser w = (Ok page, w1) ->
  exists (v : value) (w2 w' : World),
    scrape browser site ip w = (Ok v, w')
    /\ only_commands w1 w2
    /\ calls w' = TabsRemove (tabId page) :: DebuggerDetach (tabId page) :: calls w2.
Proof.
  intros Hcreate. pose proof (createPage_returns_attached w page w1 Hcreate) as Hatt.
  destruct (scrape_steps_keep_page site ip page w1) as (r & w2 & Hsteps & Hc).
  assert (Htry : scrape_try browser site ip (None, w) = (r, (Some page, w2))).
  { unfold scrape_try.
    erewrite bind_ok; [|unfold outside; cbn [fst snd]; rewrite Hcreate; reflexivity].
    erewrite bind_ok; [|reflexivity]. exact Hsteps. }
  assert (Hfin : scrape_finally browser (Some page, w2)
                 = (Ok tt, (Some (closed_page page), closed_world browser page w2))).
  { unfold scrape_finally, bind, get, on_page. cbn [fst snd].
    rewrite close_spec. reflexivity. }
  assert (Hcalls : calls (closed_world browser page w2)
                   = TabsRemove (tabId page) :: DebuggerDetach (tabId page) :: calls w2).
  { unfold closed_world. rewrite Hatt. reflexivity. }
  unfold scrape, try_finally, try_catch. rewrite Htry.
  destruct r as [data|e]; unfold scrape_catch, ret; rewrite Hfin; eauto 10.
Qed.

(** When [createPage] throws, [page] is still [null] in the [finally]
    block: the scraper reports the error and makes no further call,
    whatever [createPage] had already opened. *)
Lemma scrape_skips_close_when_createPage_throws (site : Site) (ip : string)
    (w : World) (e : string) (w1 : World) :
  createPage browser w = (Throw e, w1) ->
  scrape browser site ip w
  = (Ok (VObj [("error"%string, VStr (if String.eqb e "" then fallback site else e))]),
     w1).
Proof.
  intros Hcreate.
  assert (Htry : scrape_try browser site ip (None, w) = (Throw e, (None, w1))).
  { unfold scrape_try. erewrite bind_throw; [reflexivity|].
    unfold outside. cbn [fst snd]. rewrite Hcreate. reflexivity. }
  unfold scrape, try_finally, try_catch. rewrite Htry. reflexivity.
Qed.

End ScraperFacts.

(** C9, at the failing input: the browser opens the tab and accepts the
    attach, then rejects [Page.enable].  [scrapeVirusTotal] returns its
    error entry, and the calls it made are the creation of tab 7, the
    attach and the rejected command: the attached session is never
    detached and its tab is never removed, [close] is not called. *)
Theorem C9_scraper_leaves_attached_session_open :
  let run := scrapeVirusTotal Sample.rejecting "document.title" "203.0.113.9"
               Sample.empty_world in
  fst run = Ok (VObj [("error"%string, VStr "Target closed")])
  /\ calls (snd run)
     = [DebuggerSendCommand 7 "Page.enable" NoParams;
        DebuggerAttach 7 "1.3";
        TabsCreate "about:blank" false]
  /\ debugger_attach Sample.rejecting
       (during (DebuggerAttach 7 "1.3")
          (once_done Sample.rejecting (TabsCreate "about:blank" false)
             Sample.empty_world)) = Ok tt.
Proof. cbv zeta. split; [|split]; vm_compute; reflexivity. Qed.

(** * Further properties of the code *)

(** ** Strings *)

Lemma append_nil_r (s : string) : s +:+ "" = s.
Proof.
  induction s as [|c s IH]; [reflexivity|].
  rewrite EscapeFacts.append_cons, IH. reflexivity.
Qed.

Lemma append_assoc_str (a b c : string) : (a +:+ b) +:+ c = a +:+ (b +:+ c).
Proof.
  induction a as [|x a IH]; [reflexivity|].
  rewrite !EscapeFacts.append_cons, IH. reflexivity.
Qed.

Lemma append_eq_nil (a b : string) : a +:+ b = "" -> a = "" /\ b = "".
Proof.
  destruct a as [|x a]; [intros H; split; [reflexivity|exact H]|].
  rewrite EscapeFacts.append_cons. discriminate.
Qed.

Lemma length_append (a b : string) :
  String.length (a +:+ b) = (String.length a + String.length b)%nat.
Proof.
  induction a as [|x a IH]; [reflexivity|].
  rewrite EscapeFacts.append_cons. cbn [String.length]. rewrite IH. reflexivity.
Qed.

(** ** The matcher against the strings an expression stands for *)

Module RegexFacts.
Import Regex.

Lemma nullable_denote (r : regex) : nullable r = true <-> denote r "".
Proof.
  induction r as [| |p|r1 IH1 r2 IH2|r1 IH1 r2 IH2]; cbn [nullable denote].
  - split; [discriminate|tauto].
  - tauto.
  - split; [discriminate|]. intros (c & H & _). discriminate.
  - rewrite andb_true_iff, IH1, IH2. split.
    + intros [H1 H2]. exists ""%string, ""%string. auto.
    + intros (a & b & H & H1 & H2). symmetry in H.
      apply append_eq_nil in H as [-> ->]. auto.
  - rewrite orb_true_iff, IH1, IH2. tauto.
Qed.

Lemma deriv_denote (c : ascii) (r : regex) (s : string) :
  denote (deriv c r) s <-> denote r (String c s).
Proof.
  revert s. induction r as [| |p|r1 IH1 r2 IH2|r1 IH1 r2 IH2]; intros s;
    cbn [deriv denote].
  - tauto.
  - split; [tauto|discriminate].
  - destruct (p c) eqn:Hp; cbn [denote].
    + split.
      * intros ->. eauto.
      * intros (c' & [= -> ->] & _). reflexivity.
    + split; [tauto|]. intros (c' & [= -> ->] & H). congruence.
  - assert (Hleft : denote (Seq (deriv c r1) r2) s
                    <-> exists a b, s = a +:+ b /\ denote r1 (String c a) /\ denote r2 b).
    { cbn [denote]. split; intros (a & b & H & H1 & H2); exists a, b;
        (split; [exact H|]); (split; [apply IH1; exact H1|exact H2]). }
    destruct (nullable r1) eqn:Hn.
    + cbn [denote] in *. fold (denote (Seq (deriv c r1) r2) s). split.
      * intros [H|H].
        -- apply Hleft in H as (a & b & -> & H1 & H2).
           exists (String c a), b. rewrite EscapeFacts.append_cons. auto.
        -- exists ""%string, (String c s). split; [reflexivity|].
           split; [apply nullable_denote; exact Hn|apply IH2; exact H].
      * intros (a & b & H & H1 & H2). destruct a as [|x a].
        -- right. apply IH2. change (""%string +:+ b) with b in H. subst b. exact H2.
        -- left. rewrite EscapeFacts.append_cons in H. injection H as <- ->.
           apply Hleft. eauto.
    + rewrite Hleft. split.
      * intros (a & b & -> & H1 & H2).
        exists (String c a), b. rewrite EscapeFacts.append_cons. auto.
      * intros (a & b & H & H1 & H2). destruct a as [|x a].
        -- apply nullable_denote in H1. congruence.
        -- rewrite EscapeFacts.append_cons in H. injection H as <- ->. eauto.
  - rewrite IH1, IH2. tauto.
Qed.

(** The matcher accepts exactly the strings the expression stands for. *)
Lemma test_denote (r : regex) (s : string) : test r s = true <-> denote r s.
Proof.
  revert r. induction s as [|c s IH]; intros r; cbn [test].
  - apply nullable_denote.
  - rewrite IH. apply deriv_denote.
Qed.

Lemma denote_Chr (k : ascii) (s : string) : denote (Chr k) s <-> s = String k "".
Proof.
  unfold Chr. cbn [denote]. split.
  - intros (c & -> & H). apply Ascii.eqb_eq in H. subst. reflexivity.
  - intros ->. exists k. split; [reflexivity|apply Ascii.eqb_refl].
Qed.

Lemma denote_Range (lo hi : ascii) (s : string) :
  denote (Range lo hi) s
  <-> exists c, s = String c ""
                /\ (nat_of_ascii lo <= nat_of_ascii c <= nat_of_ascii hi)%nat.
Proof.
  unfold Range. cbn [denote]. split; intros (c & -> & H); exists c;
    (split; [reflexivity|]).
  - apply andb_prop in H as [H1 H2].
    apply Nat.leb_le in H1. apply Nat.leb_le in H2. lia.
  - apply andb_true_intro. split; apply Nat.leb_le; lia.
Qed.

Lemma denote_Opt (r : regex) (s : string) : denote (Opt r) s <-> denote r s \/ s = "".
Proof. reflexivity. Qed.

End RegexFacts.

(** ** [isValidIP] *)

Module IpFacts.
Import Regex RegexFacts.

Lemma append_nil_l (s : string) : "" +:+ s = s.
Proof. reflexivity. Qed.

Ltac flatten :=
  repeat first [rewrite EscapeFacts.append_cons | rewrite append_nil_l].

Ltac to_arith :=
  unfold is_octet; cbn [all_digits decimal String.length]; unfold is_digit;
  repeat rewrite andb_true_iff; repeat rewrite Nat.leb_le.

Lemma is_octet_1 (c1 : ascii) :
  is_octet (String c1 "") = true
  <-> (48 <= nat_of_ascii c1 <= 57)%nat.
Proof. to_arith. lia. Qed.

Lemma is_octet_2 (c1 c2 : ascii) :
  is_octet (String c1 (String c2 "")) = true
  <-> (48 <= nat_of_ascii c1 <= 57 /\ 48 <= nat_of_ascii c2 <= 57)%nat.
Proof. to_arith. lia. Qed.

Lemma is_octet_3 (c1 c2 c3 : ascii) :
  is_octet (String c1 (String c2 (String c3 ""))) = true
  <-> (48 <= nat_of_ascii c1 <= 57 /\ 48 <= nat_of_ascii c2 <= 57
       /\ 48 <= nat_of_ascii c3 <= 57
       /\ 100 * (nat_of_ascii c1 - 48) + 10 * (nat_of_ascii c2 - 48)
          + (nat_of_ascii c3 - 48) <= 255)%nat.
Proof. to_arith. lia. Qed.

Lemma is_octet_long (c1 c2 c3 c4 : ascii) (s : string) :
  is_octet (String c1 (String c2 (String c3 (String c4 s)))) = false.
Proof.
  unfold is_octet. cbn [String.length].
  replace (S (S (S (S (String.length s)))) <=? 3)%nat with false
    by (symmetry; apply Nat.leb_gt; lia).
  rewrite andb_false_r. reflexivity.
Qed.

Ltac codes :=
  change (nat_of_ascii "0") with 48%nat in *;
  change (nat_of_ascii "1") with 49%nat in *;
  change (nat_of_ascii "2") with 50%nat in *;
  change (nat_of_ascii "4") with 52%nat in *;
  change (nat_of_ascii "5") with 53%nat in *;
  change (nat_of_ascii "9") with 57%nat in *.

Lemma char_of_code (c : ascii) (n : nat) : nat_of_ascii c = n -> c = ascii_of_nat n.
Proof. intros <-. symmetry. apply ascii_nat_embedding. Qed.

(** The octet alternative stands for the numerals of 0..255 with at most
    three digits. *)
Lemma octet_denote (a : string) : denote Popup.octetRegex a <-> is_octet a = true.
Proof.
  unfold Popup.octetRegex. split.
  - intros [H|[H|H]].
    + destruct H as (x & y & -> & Hx & (y1 & y2 & -> & Hy1 & Hy2)).
      apply denote_Chr in Hx, Hy1. apply denote_Range in Hy2 as (c & -> & Hc).
      subst. flatten. apply is_octet_3. codes; lia.
    + destruct H as (x & y & -> & Hx & (y1 & y2 & -> & Hy1 & Hy2)).
      apply denote_Chr in Hx. apply denote_Range in Hy1 as (c & -> & Hc).
      apply denote_Range in Hy2 as (d & -> & Hd).
      subst. flatten. apply is_octet_3. codes; lia.
    + destruct H as (x & y & -> & Hx & (y1 & y2 & -> & Hy1 & Hy2)).
      apply denote_Range in Hy1 as (c & -> & Hc).
      apply denote_Opt in Hx. apply denote_Opt in Hy2.
      destruct Hx as [Hx| ->]; destruct Hy2 as [Hy2| ->];
        try (apply denote_Range in Hx as (b & -> & Hb));
        try (apply denote_Range in Hy2 as (d & -> & Hd));
        flatten;
        first [apply is_octet_3 | apply is_octet_2 | apply is_octet_1]; codes; lia.
  - intros H.
    assert (Hr : forall c lo hi, (nat_of_ascii lo <= nat_of_ascii c <= nat_of_ascii hi)%nat ->
                 denote (Range lo hi) (String c "")).
    { intros c lo hi Hc. apply denote_Range. eauto. }
    destruct a as [|c1 [|c2 [|c3 [|c4 a]]]].
    + discriminate.
    + apply is_octet_1 in H. right. right.
      exists ""%string, (String c1 ""). split; [reflexivity|].
      split; [right; reflexivity|].
      exists (String c1 ""), ""%string. split; [reflexivity|].
      split; [apply Hr|right; reflexivity]. codes; lia.
    + apply is_octet_2 in H. right. right.
      exists ""%string, (String c1 (String c2 "")). split; [reflexivity|].
      split; [right; reflexivity|].
      exists (String c1 ""), (String c2 ""). split; [reflexivity|].
      split; [apply Hr|left; apply Hr]; codes; lia.
    + apply is_octet_3 in H.
      destruct (Nat.eq_dec (nat_of_ascii c1) 50%nat) as [H1|H1].
      * apply char_of_code in H1 as Hc1. change (ascii_of_nat 50%nat) with "2"%char in Hc1.
        destruct (Nat.eq_dec (nat_of_ascii c2) 53%nat) as [H2|H2].
        -- apply char_of_code in H2 as Hc2.
           change (ascii_of_nat 53%nat) with "5"%char in Hc2. subst c1 c2.
           left. exists "2"%string, (String "5" (String c3 "")).
           split; [reflexivity|]. split; [apply denote_Chr; reflexivity|].
           exists "5"%string, (String c3 ""). split; [reflexivity|].
           split; [apply denote_Chr; reflexivity|apply Hr]. codes; lia.
        -- subst c1. right. left. exists "2"%string, (String c2 (String c3 "")).
           split; [reflexivity|]. split; [apply denote_Chr; reflexivity|].
           exists (String c2 ""), (String c3 ""). split; [reflexivity|].
           split; apply Hr; codes; lia.
      * right. right. exists (String c1 ""), (String c2 (String c3 "")).
        split; [reflexivity|]. split; [left; apply Hr|].
        -- codes; lia.
        -- exists (String c2 ""), (String c3 ""). split; [reflexivity|].
           split; [apply Hr|left; apply Hr]; codes; lia.
    + rewrite is_octet_long in H. discriminate.
Qed.

End IpFacts.

(** X1: [isValidIP] accepts exactly the dotted quads: four numerals
    separated by single dots, each made of one to three decimal digits
    (leading zeros included) that write a number from 0 to 255; nothing
    may come before or after them. *)
Theorem isValidIP_accepts_exactly_dotted_quads (ip : string) :
  Popup.isValidIP ip = true
  <-> exists a b c d : string,
        ip = a +:+ "." +:+ b +:+ "." +:+ c +:+ "." +:+ d
        /\ is_octet a = true /\ is_octet b = true
        /\ is_octet c = true /\ is_octet d = true.
Proof.
  unfold Popup.isValidIP. rewrite RegexFacts.test_denote.
  unfold Popup.ipRegex. cbn [Regex.Times denote]. split.
  - intros (x & d & -> & (p1 & x1 & -> & (a & dot1 & -> & Ha & Hd1)
                          & (p2 & x2 & -> & (b & dot2 & -> & Hb & Hd2)
                             & (p3 & x3 & -> & (c & dot3 & -> & Hc & Hd3) & ->))) & Hd).
    destruct Hd1 as (k1 & -> & Hk1). destruct Hd2 as (k2 & -> & Hk2).
    destruct Hd3 as (k3 & -> & Hk3).
    apply Ascii.eqb_eq in Hk1, Hk2, Hk3. subst k1 k2 k3.
    exists a, b, c, d. rewrite append_nil_r, !append_assoc_str.
    split; [reflexivity|].
    repeat split; apply IpFacts.octet_denote; assumption.
  - intros (a & b & c & d & -> & Ha & Hb & Hc & Hd).
    apply IpFacts.octet_denote in Ha, Hb, Hc, Hd.
    assert (Hdot : exists k, "."%string = String k "" /\ Ascii.eqb "." k = true)
      by (exists "."%char; split; reflexivity).
    exists (a +:+ "." +:+ b +:+ "." +:+ c +:+ "."), d.
    split; [rewrite !append_assoc_str; reflexivity|]. split; [|exact Hd].
    exists (a +:+ "."), (b +:+ "." +:+ c +:+ "."). split; [rewrite !append_assoc_str; reflexivity|].
    split; [exists a, "."%string; auto|].
    exists (b +:+ "."), (c +:+ "."). split; [rewrite !append_assoc_str; reflexivity|].
    split; [exists b, "."%string; auto|].
    exists (c +:+ "."), ""%string. split; [rewrite append_nil_r; reflexivity|].
    split; [exists c, "."%string; auto|reflexivity].
Qed.

(** ** [getScoreClass] *)

(** X2: the class of a score follows its severity.  For the abuse
    confidence the classes are cut at 20 and 50 and a higher score is
    never milder; for the reputation they are cut at -10 and 0 and a
    lower score is never milder. *)
Theorem getScoreClass_is_monotone (n m : Z) :
  n <= m ->
  (Popup.getScoreClass (Popup.ScoreInt n) "abuse" = "danger"%string
   -> Popup.getScoreClass (Popup.ScoreInt m) "abuse" = "danger"%string)
  /\ (Popup.getScoreClass (Popup.ScoreInt m) "abuse" = "safe"%string
      -> Popup.getScoreClass (Popup.ScoreInt n) "abuse" = "safe"%string)
  /\ (Popup.getScoreClass (Popup.ScoreInt m) "reputation" = "danger"%string
      -> Popup.getScoreClass (Popup.ScoreInt n) "reputation" = "danger"%string)
  /\ (Popup.getScoreClass (Popup.ScoreInt n) "reputation" = "safe"%string
      -> Popup.getScoreClass (Popup.ScoreInt m) "reputation" = "safe"%string)
  /\ (Popup.getScoreClass (Popup.ScoreInt n) "abuse" = "danger"%string <-> 50 <= n)
  /\ (Popup.getScoreClass (Popup.ScoreInt n) "abuse" = "safe"%string <-> n < 20)
  /\ (Popup.getScoreClass (Popup.ScoreInt n) "reputation" = "danger"%string <-> n < -10)
  /\ (Popup.getScoreClass (Popup.ScoreInt n) "reputation" = "safe"%string <-> 0 <= n).
Proof.
  intros Hle. unfold Popup.getScoreClass, Popup.score_ge, Popup.score_lt.
  cbn [String.eqb Ascii.eqb Bool.eqb andb].
  destruct (Z.leb_spec 50 n), (Z.leb_spec 20 n), (Z.leb_spec 50 m), (Z.leb_spec 20 m),
    (Z.ltb_spec n (-10)), (Z.ltb_spec n 0), (Z.ltb_spec m (-10)), (Z.ltb_spec m 0);
    try lia;
    repeat match goal with |- _ /\ _ => split end;
    try (split; intros); try intros; try discriminate; try reflexivity; try lia.
Qed.

(** The scores 60 and 70. *)
Lemma getScoreClass_is_monotone_witness :
  Popup.getScoreClass (Popup.ScoreInt 70) "abuse" = "danger"%string.
Proof.
  exact (proj1 (getScoreClass_is_monotone 60 70 ltac:(lia)) eq_refl).
Defined.

(** ** [escape_quotes] *)

(** X3: the escaping adds exactly one backslash per single quote and
    changes nothing else: the result is longer by the number of quotes,
    and it is the argument itself exactly when the argument has no
    quote. *)
Theorem escape_quotes_adds_one_backslash_per_quote (s : string) :
  String.length (Js.escape_quotes s) = (String.length s + quotes s)%nat
  /\ (Js.escape_quotes s = s <-> quotes s = 0%nat).
Proof.
  assert (Hlen : forall t, String.length (Js.escape_quotes t)
                           = (String.length t + quotes t)%nat).
  { induction t as [|c t IH]; [reflexivity|].
    cbn [Js.escape_quotes quotes]. destruct (Ascii.eqb c "'");
      cbn [String.length]; rewrite IH; lia. }
  split; [apply Hlen|]. split.
  - intros H. pose proof (Hlen s) as Hl. rewrite H in Hl. lia.
  - induction s as [|c s IH]; [reflexivity|].
    cbn [Js.escape_quotes quotes]. destruct (Ascii.eqb c "'"); [discriminate|].
    intros H. rewrite IH by exact H. reflexivity.
Qed.

Lemma escape_quotes_head (s : string) (rest : string) :
  Js.escape_quotes s <> String "'" rest.
Proof.
  destruct s as [|c s]; [discriminate|]. cbn [Js.escape_quotes].
  destruct (Ascii.eqb c "'") eqn:Hq; [discriminate|].
  intros [= -> _]. discriminate.
Qed.

(** X4: the escaping loses nothing: two different arguments are never
    escaped to the same text. *)
Theorem escape_quotes_is_injective (s t : string) :
  Js.escape_quotes s = Js.escape_quotes t -> s = t.
Proof.
  revert t. induction s as [|c s IH]; intros [|d t]; cbn [Js.escape_quotes].
  - reflexivity.
  - destruct (Ascii.eqb d "'"); discriminate.
  - destruct (Ascii.eqb c "'"); discriminate.
  - destruct (Ascii.eqb c "'") eqn:Hc, (Ascii.eqb d "'") eqn:Hd.
    + apply Ascii.eqb_eq in Hc, Hd. subst. intros [= H]. f_equal. apply IH. exact H.
    + intros [= <- H]. symmetry in H. apply escape_quotes_head in H. contradiction.
    + intros [= -> H]. apply escape_quotes_head in H. contradiction.
    + intros [= <- H]. f_equal. apply IH. exact H.
Qed.

(** A selector with a quote. *)
Lemma escape_quotes_is_injective_witness : "a'b"%string = "a'b"%string.
Proof.
  exact (escape_quotes_is_injective "a'b" "a'b" eq_refl).
Defined.

(** ** Error classification *)

Module ErrorFacts.
Import Errors.

Lemma toLowerCase_app (a b : string) :
  toLowerCase (a +:+ b) = toLowerCase a +:+ toLowerCase b.
Proof.
  induction a as [|c a IH]; [reflexivity|].
  rewrite EscapeFacts.append_cons. cbn [toLowerCase].
  rewrite EscapeFacts.append_cons, IH. reflexivity.
Qed.

Lemma after_app (needle pre post : string) :
  exists rest, Js.after needle (pre +:+ needle +:+ post) = Some rest.
Proof.
  induction pre as [|c pre IH].
  - exists post. change ("" +:+ needle +:+ post) with (needle +:+ post).
    destruct needle as [|k needle]; [destruct post; reflexivity|].
    rewrite EscapeFacts.append_cons.
    pose proof (EscapeFacts.strip_prefix_app (String k needle) post) as H.
    rewrite EscapeFacts.append_cons in H. cbn [Js.after]. rewrite H. reflexivity.
  - destruct IH as (rest & IH). rewrite EscapeFacts.append_cons. cbn [Js.after].
    destruct (Js.strip_prefix needle _); eauto.
Qed.

Lemma includes_app (needle pre post : string) :
  includes (pre +:+ needle +:+ post) needle = true.
Proof.
  unfold includes. destruct (after_app needle pre post) as (rest & ->). reflexivity.
Qed.

Lemma append_nonempty (a b : string) : b <> ""%string -> String.eqb (a +:+ b) "" = false.
Proof.
  intros Hb. apply String.eqb_neq. intros H. apply append_eq_nil in H as [_ H].
  contradiction.
Qed.

End ErrorFacts.

(** X5: the timeout test comes first and ignores the letter case: a
    message that contains the word timeout, in any mix of upper and lower
    case and whatever else it mentions, is classified [TIMEOUT]; an error
    without message, or with an empty one, is [UNKNOWN]. *)
Theorem classifyError_timeout_first (before word after_ : string) :
  Errors.toLowerCase word = "timeout"%string ->
  Errors.classifyError (Some (before +:+ word +:+ after_)) = Errors.TIMEOUT
  /\ Errors.classifyError None = Errors.UNKNOWN
  /\ Errors.classifyError (Some ""%string) = Errors.UNKNOWN.
Proof.
  intros Hw. split; [|split; reflexivity].
  unfold Errors.classifyError.
  rewrite !ErrorFacts.toLowerCase_app, Hw, ErrorFacts.includes_app. reflexivity.
Qed.

(** A message that also mentions the network. *)
Lemma classifyError_timeout_first_witness :
  Errors.classifyError (Some ("Network "%string +:+ "TimeOut"%string +:+ " (403)"%string))
  = Errors.TIMEOUT.
Proof.
  exact (proj1 (classifyError_timeout_first "Network " "TimeOut" " (403)" eq_refl)).
Defined.

(** X6: the errors the [Page] class throws itself are classified as
    intended: the navigation timeout of [goto], for every deadline, and
    the selector timeout of [waitForSelector], for every selector
    (whatever words the selector contains), are [TIMEOUT]; the
    not-attached error of [_sendCommand] is [DEBUGGER]. *)
Theorem classifyError_of_page_errors (timeout : Z) (selector : string) :
  Errors.classifyError
    (Some ("Navigation timeout after " +:+ Js.string_of_Z timeout +:+ "ms"))
  = Errors.TIMEOUT
  /\ Errors.classifyError (Some ("Timeout waiting for selector: " +:+ selector))
     = Errors.TIMEOUT
  /\ Errors.classifyError (Some "Debugger not attached"%string) = Errors.DEBUGGER.
Proof.
  split; [|split; [|reflexivity]].
  - apply (classifyError_timeout_first "Navigation " "timeout"
             (" after " +:+ Js.string_of_Z timeout +:+ "ms") eq_refl).
  - apply (classifyError_timeout_first "" "Timeout"
             (" waiting for selector: " +:+ selector) eq_refl).
Qed.

(** X7: for every error and every source name, the type [classifyError]
    returns has a message: [getUserFriendlyMessage] answers with a
    non-empty text, which names the source unless the type is
    [DEBUGGER]. *)
Theorem getUserFriendlyMessage_of_classified (error_message : option string)
    (source : string) :
  exists text : string,
    Errors.getUserFriendlyMessage (Errors.classifyError error_message) source = Some text
    /\ text <> ""%string
    /\ (Errors.classifyError error_message = Errors.DEBUGGER
        \/ Errors.includes text source = true).
Proof.
  assert (Hne : forall (a b : string), b <> ""%string -> a +:+ b <> ""%string).
  { intros a b Hb H. apply append_eq_nil in H as [_ H]. contradiction. }
  assert (Htail : forall pre, Errors.includes (pre +:+ source) source = true).
  { intros pre. rewrite <- (append_nil_r source) at 1. apply ErrorFacts.includes_app. }
  assert (Hhead : forall post, Errors.includes (source +:+ post) source = true).
  { intros post. apply (ErrorFacts.includes_app source "" post). }
  assert (Hmid : forall pre post, Errors.includes (pre +:+ source +:+ post) source = true).
  { intros pre post. apply ErrorFacts.includes_app. }
  unfold Errors.classifyError.
  repeat match goal with
         | |- context [if ?b then _ else _] => destruct b
         end;
    unfold Errors.getUserFriendlyMessage; cbn [Errors.own Errors.messages String.eqb
      Ascii.eqb Bool.eqb Errors.TIMEOUT Errors.NETWORK Errors.BLOCKED Errors.PARSE
      Errors.DEBUGGER Errors.UNKNOWN andb];
    try match goal with
        | |- context [String.eqb ?m ""] =>
            let Hm := fresh "Hm" in
            assert (Hm : String.eqb m "" = false)
              by (apply ErrorFacts.append_nonempty; discriminate);
            rewrite Hm
        end;
    (eexists; split; [reflexivity|]);
    (split; [first [apply Hne; discriminate | discriminate]|]);
    first [left; reflexivity | right; first [apply Hhead | apply Htail | apply Hmid]].
Qed.

(** ** More on the [Page] class *)

(** X8: on an attached page [evaluate] transmits exactly one command,
    [Runtime.evaluate] with the expression, [returnByValue] and
    [awaitPromise], and leaves the page as it is.  A rejection of the
    command is passed on unchanged; a reply with [exceptionDetails] makes
    it throw "Evaluation failed: " and the text, even when the reply
    carries a result; otherwise it returns the value, or [undefined] when
    the reply has none. *)
Theorem evaluate_sends_one_command_and_unwraps
    (browser : Browser) (expression : string) (p : Page) (w : World) :
  _attached p = true ->
  let c := DebuggerSendCommand (tabId p) "Runtime.evaluate"
             (EvaluateParams expression true true) in
  let run := evaluate browser expression (p, w) in
  calls (snd (snd run)) = c :: calls w
  /\ fst (snd run) = p
  /\ fst run
     = match debugger_sendCommand browser (during c w) with
       | Throw err => Throw err
       | Ok reply =>
           match exceptionDetails reply with
           | Some text => Throw ("Evaluation failed: " +:+ text)
           | None =>
               Ok (match result reply with
                   | Some v => v
                   | None => VUndefined
                   end)
           end
       end.
Proof.
  intros Ha c run. subst run. rewrite (evaluate_attached browser expression p w Ha).
  cbv zeta. fold c. cbn [fst snd]. split; [reflexivity|]. split; [reflexivity|].
  destruct (debugger_sendCommand browser (during c w)) as [reply|err]; reflexivity.
Qed.

(** A page script that throws. *)
Lemma evaluate_sends_one_command_witness :
  fst (evaluate Sample.rejecting "x" ({| tabId := 7; _attached := true |},
                                       Sample.empty_world))
  = Throw "Target closed".
Proof.
  exact (proj2 (proj2 (evaluate_sends_one_command_and_unwraps Sample.rejecting "x"
                         {| tabId := 7; _attached := true |} Sample.empty_world
                         eq_refl))).
Defined.

(** X9: [_attach] on a page that is already flagged attached returns at
    once without any call.  This is also the case after an [_attach] that
    failed while enabling the domains: the flag was set before the first
    [enable], so a second [_attach] enables nothing. *)
Theorem _attach_again_does_nothing (browser : Browser) (tab : nat) (w : World) (p : Page)
    (w1 : World) :
  _attached p = true ->
  _attach browser (p, w1) = (Ok tt, (p, w1))
  /\ (debugger_attach browser (during (DebuggerAttach tab "1.3") w) = Ok tt ->
      let failed := snd (_attach browser (new_Page tab, w)) in
      _attach browser failed = (Ok tt, failed)).
Proof.
  assert (Hidle : forall q v, _attached q = true -> _attach browser (q, v) = (Ok tt, (q, v))).
  { intros q v Hq. unfold _attach, bind, this. cbn [fst snd]. rewrite Hq. reflexivity. }
  intros Ha. split; [apply Hidle; exact Ha|].
  intros Hatt. cbv zeta.
  destruct (_attach_new_page browser tab w) as (_ & Hflag & _).
  destruct (_attach browser (new_Page tab, w)) as [r [q v]]. cbn [snd] in *.
  apply Hidle. apply Hflag. exact Hatt.
Qed.

(** The page left behind when every [enable] is rejected. *)
Lemma _attach_again_witness :
  let failed := snd (_attach Sample.rejecting (new_Page 7, Sample.empty_world)) in
  _attach Sample.rejecting failed = (Ok tt, failed).
Proof.
  exact (proj2 (_attach_again_does_nothing Sample.rejecting 7 Sample.empty_world
                  {| tabId := 7; _attached := true |} Sample.empty_world eq_refl)
           eq_refl).
Defined.

(** X10: when [createPage] returns a page, the page is flagged attached,
    its tab is the one [chrome.tabs.create] answered, and the calls made
    are, in this order: the creation of an inactive [about:blank] tab, the
    attach with protocol version 1.3, and [Page.enable], [Runtime.enable],
    [DOM.enable]. *)
Theorem createPage_success (browser : Browser) (w : World) (page : Page) (w1 : World) :
  createPage browser w = (Ok page, w1) ->
  _attached page = true
  /\ tabs_create browser (during (TabsCreate "about:blank" false) w) = Ok (tabId page)
  /\ calls w1
     = [ DebuggerSendCommand (tabId page) "DOM.enable" NoParams;
         DebuggerSendCommand (tabId page) "Runtime.enable" NoParams;
         DebuggerSendCommand (tabId page) "Page.enable" NoParams;
         DebuggerAttach (tabId page) "1.3";
         TabsCreate "about:blank" false ] ++ calls w.
Proof.
  intros H. unfold createPage, bind at 1, chrome_tabs_create, api in H.
  fold (during (TabsCreate "about:blank" false) w) in H.
  destruct (tabs_create browser (during (TabsCreate "about:blank" false) w))
    as [tab|e]; [|discriminate].
  rewrite _attach_new_page_unfold in H. cbv zeta in H.
  destruct (debugger_attach browser _) as [[]|e]; [|discriminate].
  unfold enable_domains, bind in H.
  rewrite (_sendCommand_attached browser "Page.enable" NoParams
             {| tabId := tab; _attached := true |} _ eq_refl) in H.
  cbv zeta in H. destruct (debugger_sendCommand browser _); [|discriminate].
  rewrite (_sendCommand_attached browser "Runtime.enable" NoParams
             {| tabId := tab; _attached := true |} _ eq_refl) in H.
  cbv zeta in H. destruct (debugger_sendCommand browser _); [|discriminate].
  rewrite (_sendCommand_attached browser "DOM.enable" NoParams
             {| tabId := tab; _attached := true |} _ eq_refl) in H.
  cbv zeta in H. destruct (debugger_sendCommand browser _); [|discriminate].
  cbn [ret] in H. injection H as <- <-. repeat split.
Qed.

(** The five calls, against the browser that accepts everything. *)
Lemma createPage_success_witness :
  calls (snd (createPage Sample.steady Sample.empty_world))
  = [ DebuggerSendCommand 7 "DOM.enable" NoParams;
      DebuggerSendCommand 7 "Runtime.enable" NoParams;
      DebuggerSendCommand 7 "Page.enable" NoParams;
      DebuggerAttach 7 "1.3";
      TabsCreate "about:blank" false ].
Proof.
  exact (proj2 (proj2 (createPage_success Sample.steady Sample.empty_world
                         {| tabId := 7; _attached := true |}
                         (snd (createPage Sample.steady Sample.empty_world))
                         eq_refl))).
Defined.

(** ** More on [goto] *)

Section GotoFacts.

Variables (tab : nat) (timeout : Z).

Lemma deliver_all_cons (o : Occurrence) (occs : list Occurrence)
    (st : LoadPromise * World) :
  deliver_all tab timeout (o :: occs) st
  = deliver_all tab timeout occs (deliver tab timeout st o).
Proof. reflexivity. Qed.

(** A pending wait is fulfilled by the first load or DOM-ready
    notification of its own tab, and by nothing else. *)
Lemma events_outcome (l t : nat) (registry : gset nat) (evs : list (nat * string))
    (st : LoadPromise * World) :
  wait_inv timeout l t registry st ->
  settled (fst st) = Pending ->
  settled (fst (deliver_all tab timeout (debugger_events evs) st))
  = if existsb (is_load_signal tab) evs then Fulfilled else Pending.
Proof.
  revert st. induction evs as [|[source method] evs IH]; intros st Hinv Hp;
    [exact Hp|].
  change (debugger_events ((source, method) :: evs))
    with (DebuggerEvent source method :: debugger_events evs).
  rewrite deliver_all_cons. cbn [existsb].
  pose proof (wait_inv_deliver tab timeout l t registry st
                (DebuggerEvent source method) Hinv) as Hnext.
  destruct st as [p w]. cbn [fst snd] in Hp.
  destruct Hinv as (Hl & Ht & [(_ & Hin & _)|([Hs|Hs] & _)]);
    cbn [fst snd] in *; try congruence.
  cbn [deliver] in *.
  destruct (decide (listener p ∈ listeners w)) as [_|Hn]; [|congruence].
  unfold on_event, is_load_signal in *. cbn [fst snd] in *.
  destruct (source =? tab)%nat; cbn [negb andb] in *.
  - destruct (String.eqb method "Page.loadEventFired"
              || String.eqb method "Page.domContentEventFired"); cbn [orb].
    + unfold resolve in *. rewrite Hp in *.
      destruct Hnext as (Hl' & Ht' & [(Hp' & _)|(_ & Hnl & Hnt & _)]);
        cbn [fst snd settled] in *; [discriminate|].
      rewrite deliver_all_settled; cbn [fst snd listener timeoutId];
        [reflexivity|congruence|congruence].
    + apply (IH (p, w)); [exact Hnext|exact Hp].
  - apply (IH (p, w)); [exact Hnext|exact Hp].
Qed.

End GotoFacts.

(** X11: on an attached page whose [Page.navigate] command is accepted,
    [goto] returns normally exactly when, before the deadline, the
    browser emits [Page.loadEventFired] or [Page.domContentEventFired]
    for the page's own tab; events of other tabs and other events do not
    count, and without such an event [goto] throws "Navigation timeout
    after N ms" with N the [timeout] option, 30000 by default.  In both
    cases the navigation command is the only call made. *)
Theorem goto_outcome (browser : Browser) (u : string) (o : GotoOptions)
    (p : Page) (w : World) (reply : Reply) :
  _attached p = true ->
  let c := DebuggerSendCommand (tabId p) "Page.navigate" (NavigateParams u) in
  let w1 := snd (new_load_promise w) in
  debugger_sendCommand browser (during c w1) = Ok reply ->
  fst (goto browser u o (p, w))
  = (if existsb (is_load_signal (tabId p)) (events browser (once_done browser c w1))
     then Ok tt
     else Throw ("Navigation timeout after "
                 +:+ Js.string_of_Z (default 30000 (timeout o)) +:+ "ms"))
  /\ calls (snd (snd (goto browser u o (p, w)))) = c :: calls w.
Proof.
  intros Ha c w1 Hnav. unfold goto. cbv zeta.
  erewrite bind_ok; [|reflexivity].
  erewrite bind_ok; [|unfold in_world; cbn [fst snd];
                      rewrite new_load_promise_returns; reflexivity].
  cbn [fst snd].
  set (lp := {| listener := S (next_handle w); timeoutId := next_handle w;
                settled := Pending |}).
  change (addListener _ _) with w1.
  erewrite bind_ok;
    [|rewrite (_sendCommand_attached browser _ _ p w1 Ha); cbv zeta;
      fold c; rewrite Hnav; reflexivity].
  set (w2 := once_done browser c w1).
  pose (timeout_ := default 30000 (timeout o)).
  assert (Hinv : wait_inv timeout_ (listener lp) (timeoutId lp) (listeners w) (lp, w2)).
  { apply (wait_inv_same_registry _ _ _ _ lp w1 w2); [reflexivity|reflexivity|].
    apply (wait_inv_start timeout_ w lp w1). apply new_load_promise_returns. }
  unfold bind, in_world. cbn [fst snd]. fold timeout_. unfold schedule.
  fold (debugger_events (events browser w2)).
  set (occs := debugger_events (events browser w2)).
  pose proof (wait_inv_deliver_all (tabId p) timeout_ _ _ _ occs _ Hinv) as Hmid.
  pose proof (events_outcome (tabId p) timeout_ _ _ _ (events browser w2) _ Hinv eq_refl)
    as Hout.
  fold occs in Hout.
  pose proof (deliver_all_calls (tabId p) timeout_ occs (lp, w2)) as Hcalls.
  rewrite deliver_all_snoc.
  destruct (deliver_all (tabId p) timeout_ occs (lp, w2)) as [p' w3].
  cbn [fst snd] in Hout, Hcalls.
  destruct (existsb (is_load_signal (tabId p)) (events browser w2)).
  - destruct Hmid as (Hl & Ht & [(Hp & _)|(_ & Hnl & Hnt & _)]);
      cbn [fst snd] in *; [congruence|].
    rewrite deliver_settled; cbn [fst snd]; [|congruence|congruence].
    rewrite Hout. cbn [fst snd]. split; [reflexivity|exact Hcalls].
  - destruct Hmid as (Hl & Ht & [(Hp & _ & Htin & _)|([Hs|Hs] & _)]);
      cbn [fst snd] in *; try congruence.
    cbn [deliver].
    destruct (decide (timeoutId lp = timeoutId p' ∧ timeoutId lp ∈ timers w3))
      as [_|Hn]; [|exfalso; apply Hn; split; congruence].
    unfold on_timeout, reject. rewrite Hp. cbn [fst snd settled].
    split; [reflexivity|exact Hcalls].
Qed.

(** The DOM-ready notification of the page's own tab. *)
Lemma goto_outcome_witness :
  fst (goto Sample.steady "https://example.test" {| timeout := None; waitUntil := None |}
         ({| tabId := 7; _attached := true |}, Sample.empty_world))
  = Ok tt.
Proof.
  exact (proj1 (goto_outcome Sample.steady "https://example.test"
                  {| timeout := None; waitUntil := None |}
                  {| tabId := 7; _attached := true |} Sample.empty_world
                  (Sample.reply (VBool false)) eq_refl eq_refl)).
Defined.



(** ** More on [waitForSelector] *)

Section PollBound.

Variables (browser : Browser) (selector : string) (p : Page).
Variables (startTime timeout interval : Z).
Hypothesis interval_positive : 1 <= interval.

Lemma evaluations_once_done (c : Call) (w : World) :
  evaluations (once_done browser c w)
  = ((if is_evaluation c then 1 else 0) + evaluations w)%nat.
Proof.
  unfold evaluations, once_done, during. cbn [calls advance record_call List.filter].
  destruct (is_evaluation c); reflexivity.
Qed.

Lemma poll_loop_returns :
  forall (fuel : nat) (w : World),
    0 <= now w - startTime ->
    timeout - (now w - startTime) <= interval * (Z.of_nat fuel - 1) ->
    (1 <= fuel)%nat ->
    exists (r : outcome unit) (w' : World) (n : nat),
      waitForSelector_loop browser fuel selector startTime timeout interval (p, w)
      = Some (r, (p, w'))
      /\ evaluations w' = (evaluations w + n)%nat
      /\ (timeout <= now w - startTime ->
          r = Throw ("Timeout waiting for selector: " +:+ selector) /\ w' = w)
      /\ (now w - startTime < timeout ->
          interval * (Z.of_nat n - 1) < timeout - (now w - startTime)).
Proof.
  induction fuel as [|fuel IH]; intros w Hd Hfuel Hpos; [lia|].
  cbn [waitForSelector_loop snd].
  destruct (Z.ltb_spec (now w - startTime) timeout) as [Hlt|Hge].
  2:{ exists (Throw ("Timeout waiting for selector: " +:+ selector)), w, 0%nat.
      split; [reflexivity|]. split; [lia|]. split; [auto|lia]. }
  destruct (_attached p) eqn:Ha.
  2:{ rewrite (evaluate_detached browser _ p w Ha).
      exists (Throw "Debugger not attached"), w, 0%nat.
      split; [reflexivity|]. split; [lia|]. split; [lia|]. intros _. lia. }
  rewrite (evaluate_attached browser _ p w Ha). cbv zeta.
  set (c := DebuggerSendCommand (tabId p) "Runtime.evaluate" _).
  assert (Hev : evaluations (once_done browser c w) = (evaluations w + 1)%nat)
    by (rewrite evaluations_once_done; cbn; lia).
  assert (Hone : interval * (Z.of_nat 1 - 1) < timeout - (now w - startTime)) by lia.
  destruct (debugger_sendCommand browser (during c w)) as [reply|err].
  2:{ exists (Throw err), (once_done browser c w), 1%nat.
      split; [reflexivity|]. split; [exact Hev|]. split; [lia|auto]. }
  unfold unwrap. destruct (exceptionDetails reply) as [text|].
  { exists (Throw ("Evaluation failed: " +:+ text)), (once_done browser c w), 1%nat.
    split; [reflexivity|]. split; [exact Hev|]. split; [lia|auto]. }
  destruct (truthy (default VUndefined (result reply))).
  { exists (Ok tt), (once_done browser c w), 1%nat.
    split; [reflexivity|]. split; [exact Hev|]. split; [lia|auto]. }
  rewrite sleep_spec.
  set (w2 := advance _ (once_done browser c w)).
  assert (Hnow : now w + interval <= now w2).
  { subst w2. unfold once_done, during. cbn. lia. }
  assert (Hev2 : evaluations w2 = (evaluations w + 1)%nat) by exact Hev.
  destruct (IH w2) as (r & w' & n & Hrun & Hcount & Hpast & Hbefore); [lia|nia|nia|].
  exists r, w', (S n). split; [exact Hrun|]. split; [lia|]. split; [lia|].
  intros _. destruct (Z.lt_ge_cases (now w2 - startTime) timeout) as [H2|H2].
  - specialize (Hbefore H2). nia.
  - destruct (Hpast H2) as [_ ->]. rewrite Hev2 in Hcount.
    assert (n = 0%nat) by lia. subst n. lia.
Qed.

End PollBound.

(** X13: with a polling interval of at least one millisecond
    [waitForSelector] always returns, whatever the browser answers: given
    fuel for [timeout / interval] turns and one more, the loop ends.  It
    makes no existence check at all when the deadline is not positive
    (it throws the timeout error that names the selector and touches
    nothing), and otherwise [n] checks with [interval * (n - 1) <
    timeout]: at most one check per interval. *)
Theorem waitForSelector_returns_within_deadline
    (browser : Browser) (fuel : nat) (selector : string) (options : WaitOptions)
    (p : Page) (w : World) :
  let timeout := default 10000 (wait_timeout options) in
  let interval := default 100 (interval options) in
  1 <= interval ->
  timeout <= interval * (Z.of_nat fuel - 1) ->
  (1 <= fuel)%nat ->
  exists (r : outcome unit) (w' : World) (n : nat),
    waitForSelector browser fuel selector options (p, w) = Some (r, (p, w'))
    /\ evaluations w' = (evaluations w + n)%nat
    /\ (timeout <= 0 ->
        r = Throw ("Timeout waiting for selector: " +:+ selector) /\ w' = w)
    /\ (0 < timeout -> interval * (Z.of_nat n - 1) < timeout).
Proof.
  intros timeout interval_ Hint Hfuel Hpos. unfold waitForSelector. cbv zeta.
  fold timeout. fold interval_. cbn [snd].
  destruct (poll_loop_returns browser selector p (now w) timeout interval_ Hint fuel w)
    as (r & w' & n & Hrun & Hcount & Hpast & Hbefore); [lia|lia|exact Hpos|].
  exists r, w', n. split; [exact Hrun|]. split; [exact Hcount|]. split.
  - intros H. apply Hpast. lia.
  - intros H. specialize (Hbefore ltac:(lia)). lia.
Qed.

(** A deadline of zero: no check. *)
Lemma waitForSelector_returns_witness :
  exists (r : outcome unit) (w' : World) (n : nat),
    waitForSelector Sample.steady 1 "#x" {| wait_timeout := Some 0; interval := None |}
      ({| tabId := 7; _attached := true |}, Sample.empty_world)
    = Some (r, ({| tabId := 7; _attached := true |}, w'))
    /\ evaluations w' = (evaluations Sample.empty_world + n)%nat
    /\ (0 <= 0 -> r = Throw "Timeout waiting for selector: #x" /\ w' = Sample.empty_world)
    /\ (0 < 0 -> 100 * (Z.of_nat n - 1) < 0).
Proof.
  exact (waitForSelector_returns_within_deadline Sample.steady 1 "#x"
           {| wait_timeout := Some 0; interval := None |}
           {| tabId := 7; _attached := true |} Sample.empty_world
           ltac:(cbn; lia) ltac:(cbn; lia) ltac:(lia)).
Defined.

(** ** More on the scrapers and the background worker *)

Lemma removals_only_commands (tab : nat) (w w' : World) :
  only_commands w w' -> removals tab w' = removals tab w.
Proof.
  intros (added & Hcalls & Hall). unfold removals. rewrite Hcalls.
  rewrite List.filter_app, length_app.
  replace (List.filter (is_removal tab) added) with (@nil Call); [reflexivity|].
  clear Hcalls. induction Hall as [|c added Hc _ IH]; [reflexivity|].
  cbn [List.filter]. destruct c; try discriminate. cbn [is_removal]. exact IH.
Qed.

(** X14: a scraper never throws, whatever the browser does: it returns a
    value.  When [createPage] throws, that value is the entry
    [{ error: message }] with the message of the error, or the scraper's
    own fallback text when the message is empty, and nothing more is
    called. *)
Theorem scrape_never_throws (browser : Browser) (site : Site) (ip : string) (w : World) :
  exists v : value,
    fst (scrape browser site ip w) = Ok v
    /\ (forall (e : string) (w1 : World),
          createPage browser w = (Throw e, w1) ->
          v = VObj [("error"%string,
                     VStr (if String.eqb e "" then fallback site else e))]
          /\ snd (scrape browser site ip w) = w1).
Proof.
  destruct (createPage browser w) as [[page|e] w1] eqn:Hcreate.
  - destruct (scrape_closes_created_page browser site ip w page w1 Hcreate)
      as (v & w2 & w' & Hrun & _).
    exists v. rewrite Hrun. split; [reflexivity|]. intros e w1' [=].
  - rewrite (scrape_skips_close_when_createPage_throws browser site ip w e w1 Hcreate).
    eexists. split; [reflexivity|]. intros e' w1' [= <- <-]. auto.
Qed.

(** X15: when [createPage] returns a page, the scraper closes it exactly
    once, on every path: between [createPage] and the end only commands
    are sent, and the last two calls are the detach and the removal of
    the page's tab, so the log holds exactly one more removal of that
    tab. *)
Theorem scrape_closes_its_page_once (browser : Browser) (site : Site) (ip : string)
    (w : World) (page : Page) (w1 : World) :
  createPage browser w = (Ok page, w1) ->
  let after_ := snd (scrape browser site ip w) in
  removals (tabId page) after_ = S (removals (tabId page) w1)
  /\ exists earlier : list Call,
       calls after_
       = TabsRemove (tabId page) :: DebuggerDetach (tabId page) :: earlier.
Proof.
  intros Hcreate. cbv zeta.
  destruct (scrape_closes_created_page browser site ip w page w1 Hcreate)
    as (v & w2 & w' & Hrun & Hc & Hcalls).
  rewrite Hrun. cbn [snd]. split; [|eauto].
  rewrite <- (removals_only_commands (tabId page) w1 w2 Hc).
  unfold removals. rewrite Hcalls. cbn [List.filter is_removal].
  rewrite Nat.eqb_refl. reflexivity.
Qed.

(** The browser that accepts everything: one removal of tab 7. *)
Lemma scrape_closes_its_page_once_witness :
  removals 7 (snd (scrapeIPInfo Sample.steady "document.title" "203.0.113.9"
                     Sample.empty_world))
  = 1%nat.
Proof.
  exact (proj1 (scrape_closes_its_page_once Sample.steady _ "203.0.113.9"
                  Sample.empty_world {| tabId := 7; _attached := true |}
                  (snd (createPage Sample.steady Sample.empty_world)) eq_refl)).
Defined.

(** X16: the entry [processResult] makes for a scraper is the scraper's
    own return value: as a scraper's promise is never rejected, the entry
    "Failed to fetch data from ..." is never produced for it, and a
    failure of the source shows as the scraper's [{ error: message }]. *)
Theorem processResult_of_a_scraper (browser : Browser) (site : Site)
    (ip source : string) (w : World) :
  exists v : value,
    fst (scrape browser site ip w) = Ok v
    /\ processResult (settled_as (fst (scrape browser site ip w))) source = v.
Proof.
  destruct (scrape_never_throws browser site ip w) as (v & Hv & _).
  exists v. rewrite Hv. split; reflexivity.
Qed.

(** X17: [handleRetry] never throws.  For a source other than the three
    known ones (and that is not a name inherited from
    [Object.prototype]) it answers [{ error: "Unknown source" }] without
    any call; for a known source it returns what the scraper returns. *)
Theorem handleRetry_never_throws (browser : Browser)
    (vt_script ipinfo_script abuseipdb_script ip source : string) (w : World) :
  existsb (String.eqb source) Errors.object_prototype_names = false ->
  exists (v : value) (w' : World),
    handleRetry browser vt_script ipinfo_script abuseipdb_script ip source w
    = Some (Ok v, w')
    /\ (source <> "virustotal"%string -> source <> "ipinfo"%string ->
        source <> "abuseipdb"%string ->
        v = VObj [("error"%string, VStr "Unknown source")] /\ w' = w)
    /\ (source = "virustotal"%string ->
        scrapeVirusTotal browser vt_script ip w = (Ok v, w'))
    /\ (source = "ipinfo"%string ->
        scrapeIPInfo browser ipinfo_script ip w = (Ok v, w'))
    /\ (source = "abuseipdb"%string ->
        scrapeAbuseIPDB browser abuseipdb_script ip w = (Ok v, w')).
Proof.
  intros Hown. unfold handleRetry.
  assert (Hrun : forall site,
             exists v w', try_catch (scrape browser site ip)
                            (fun err => ret (VObj [("error"%string,
                               VStr (if String.eqb err "" then "Retry failed" else err))])) w
                          = (Ok v, w')
                          /\ scrape browser site ip w = (Ok v, w')).
  { intros site. destruct (scrape_never_throws browser site ip w) as (v & Hv & _).
    unfold try_catch. destruct (scrape browser site ip w) as [r w'].
    cbn [fst] in Hv. subst r. eauto. }
  destruct (String.eqb_spec source "virustotal") as [->|H1].
  { destruct (Hrun {| page_url := "https://www.virustotal.com/gui/ip-address/";
                       settle := 6000; extraction := vt_script;
                       fallback := "Failed to scrape VirusTotal" |})
      as (v & w' & Htry & Hs).
    exists v, w'. unfold scrapeVirusTotal. rewrite Htry.
    split; [reflexivity|]. split; [congruence|].
    split; [auto|]. split; discriminate. }
  destruct (String.eqb_spec source "ipinfo") as [->|H2].
  { destruct (Hrun {| page_url := "https://ipinfo.io/";
                       settle := 2000; extraction := ipinfo_script;
                       fallback := "Failed to scrape IPInfo" |})
      as (v & w' & Htry & Hs).
    exists v, w'. unfold scrapeIPInfo. rewrite Htry.
    split; [reflexivity|]. split; [congruence|].
    split; [discriminate|]. split; [auto|discriminate]. }
  destruct (String.eqb_spec source "abuseipdb") as [->|H3].
  { destruct (Hrun {| page_url := "https://www.abuseipdb.com/check/";
                       settle := 3000; extraction := abuseipdb_script;
                       fallback := "Failed to scrape AbuseIPDB" |})
      as (v & w' & Htry & Hs).
    exists v, w'. unfold scrapeAbuseIPDB. rewrite Htry.
    split; [reflexivity|]. split; [congruence|].
    split; [discriminate|]. split; [discriminate|auto]. }
  rewrite Hown. eexists. eexists. split; [reflexivity|].
  split; [auto|]. split; [contradiction|]. split; contradiction.
Qed.

(** A source that does not exist. *)
Lemma handleRetry_never_throws_witness :
  handleRetry Sample.steady "a" "b" "c" "203.0.113.9" "shodan" Sample.empty_world
  = Some (Ok (VObj [("error"%string, VStr "Unknown source")]), Sample.empty_world).
Proof.
  destruct (handleRetry_never_throws Sample.steady "a" "b" "c" "203.0.113.9" "shodan"
              Sample.empty_world eq_refl) as (v & w' & Hrun & Hunknown & _).
  destruct Hunknown as [-> ->]; [discriminate|discriminate|discriminate|].
  exact Hrun.
Defined.
